(** * fuzzing-tc: pool configuration resolution, machine selection and
      size/time parsing

    A shallow embedding of [common/pool.py] (whose classes [MachineTypes] and
    [PoolConfiguration] are repeated verbatim in [decision/pool.py]), of the
    task generator [PoolConfiguration.build_tasks] of [decision/pool.py], and
    the properties of them that the specification states or the code shows.

    Modelling conventions.
    - Python text is a Rocq [string]; its characters are the code points
      0..255.  The character classes of the regular expressions ([\s], [\d],
      [.], the case-insensitive letter classes) and [str.lower] are the
      Python ones restricted to that range.
    - Python [float]s are exact rationals ([Q]) kept in lowest terms
      ([Qred]); rounding and overflow of binary floating point are not
      modelled.  Python [int]s are [Z].
    - A raised exception is a value of [exn]; code that can raise returns a
      [res].  Nothing in the program catches an exception, so the first one
      raised is the outcome of the whole call.
    - A YAML document is typed as the class docstring types it; a scalar
      that may be [null] is an [option].
    - A dictionary whose iteration order matters, or that is written as a
      literal, is the list of its items; the macros of a pool, compared as
      a mapping, are a [gmap]; the set of visited parent names is a [gset].
    - A generator is the list of what it yields together with the exception
      that ends it, if one does. *)

From Stdlib Require Import String Ascii ZArith QArith Qround Lia.
From stdpp Require Import gmap strings list pretty.
From Equations Require Import Equations.
From Equations.Prop Require Import Logic.

Local Open Scope Z_scope.

(** ** Exceptions and results *)

Inductive exn : Type :=
| AssertionError (msg : string)
| TypeError (msg : string)
| KeyError (key : string)
| ValueError (msg : string)
| ZeroDivisionError
| RecursionError.

Inductive res (A : Type) : Type :=
| Ok (a : A)
| Raise (e : exn).

Arguments Ok {A} a.
Arguments Raise {A} e.

(** Sequencing: the first exception raised ends the computation. *)
#[global] Instance res_ret : MRet res := @Ok.
#[global] Instance res_bind : MBind res := fun A B k m =>
  match m with
  | Ok a => k a
  | Raise e => Raise e
  end.

(** [assert cond, msg] *)
Definition py_assert (cond : bool) (msg : string) : res unit :=
  if cond then Ok tt else Raise (AssertionError msg).

Definition is_ok {A : Type} (r : res A) : bool :=
  match r with Ok _ => true | Raise _ => false end.

(** ** Text *)

Module Text.

Definition code (c : ascii) : N := N_of_ascii c.

(** [\s] on a [str] pattern: Python's Unicode white space below 256. *)
Definition is_space (c : ascii) : bool :=
  let n := code c in
  ((9 <=? n) && (n <=? 13) || (28 <=? n) && (n <=? 32)
   || (n =? 133) || (n =? 160))%N.

(** [\d] below 256. *)
Definition is_digit (c : ascii) : bool :=
  let n := code c in ((48 <=? n) && (n <=? 57))%N.

(** [.] without [re.DOTALL]: anything but a line feed. *)
Definition is_dot (c : ascii) : bool :=
  negb (code c =? 10)%N.

(** [str.lower] on one character below 256. *)
Definition lower_ascii (c : ascii) : ascii :=
  let n := code c in
  if ((65 <=? n) && (n <=? 90)
      || (192 <=? n) && (n <=? 222) && negb (n =? 215))%N
  then ascii_of_N (n + 32) else c.

Fixpoint lower (s : string) : string :=
  match s with
  | EmptyString => EmptyString
  | String c r => String (lower_ascii c) (lower r)
  end.

Fixpoint mem (c : ascii) (s : string) : bool :=
  match s with
  | EmptyString => false
  | String d r => if Ascii.eqb c d then true else mem c r
  end.

(** A bracket class such as [[wdhms]] under [re.IGNORECASE]. *)
Definition in_class_i (cls : string) (c : ascii) : bool :=
  mem (lower_ascii c) cls.

(** Greedy repetition of a one-character pattern: the longest prefix whose
    characters satisfy [p], and what follows it. *)
Fixpoint span (p : ascii -> bool) (s : string) : string * string :=
  match s with
  | EmptyString => (EmptyString, EmptyString)
  | String c r =>
      if p c then let '(a, b) := span p r in (String c a, b)
      else (EmptyString, s)
  end.

Definition skip (p : ascii -> bool) (s : string) : string := snd (span p s).

(** An optional one-character pattern, greedy. *)
Definition opt (p : ascii -> bool) (s : string) : string * string :=
  match s with
  | String c r => if p c then (String c EmptyString, r) else (EmptyString, s)
  | EmptyString => (EmptyString, EmptyString)
  end.

Definition is_empty (s : string) : bool :=
  match s with EmptyString => true | _ => false end.

Fixpoint all (p : ascii -> bool) (s : string) : bool :=
  match s with
  | EmptyString => true
  | String c r => p c && all p r
  end.

Definition digit_val (c : ascii) : Z := Z.of_N (code c) - 48.

Fixpoint int_acc (acc : Z) (s : string) : Z :=
  match s with
  | EmptyString => acc
  | String c r => int_acc (10 * acc + digit_val c) r
  end.

Fixpoint pow10 (n : nat) : positive :=
  match n with
  | O => 1%positive
  | S k => (10 * pow10 k)%positive
  end.

(** The number written with the digits [ip] before the point and [fp]
    after it. *)
Definition decimal (ip fp : string) : Q :=
  Qmake (int_acc 0 (ip +:+ fp)) (pow10 (String.length fp)).

(** [int(s)] for a run of decimal digits. *)
Definition py_int (s : string) : res Z :=
  if negb (is_empty s) && all is_digit s then Ok (int_acc 0 s)
  else Raise (ValueError "invalid literal for int()").

(** [float(s)] for the unsigned decimal literals [ddd], [ddd.], [ddd.ddd]
    and [.ddd]; any other text is a [ValueError] here. *)
Definition py_float (s : string) : res Q :=
  let '(ip, r) := span is_digit s in
  match r with
  | EmptyString =>
      if is_empty ip
      then Raise (ValueError "could not convert string to float")
      else Ok (inject_Z (int_acc 0 ip))
  | String c fp =>
      if Ascii.eqb c "."%char && all is_digit fp
         && negb (is_empty ip && is_empty fp)
      then Ok (Qred (decimal ip fp))
      else Raise (ValueError "could not convert string to float")
  end.

End Text.

(** ** Python operators, dictionaries and generators *)

(** [d[key]] on a dictionary given by its items; a missing key is a
    [KeyError]. *)
Fixpoint dict_get {V : Type} (d : list (string * V)) (key : string) : res V :=
  match d with
  | [] => Raise (KeyError key)
  | (k, v) :: rest => if String.eqb k key then Ok v else dict_get rest key
  end.

(** [d[key]] where [key] may be [None], which no document has as a key. *)
Definition dict_get_opt {V : Type} (d : list (string * V))
  (key : option string) : res V :=
  match key with
  | Some k => dict_get d k
  | None => Raise (KeyError "None")
  end.

(** [a / b] (true division). *)
Definition py_truediv (a b : Q) : res Q :=
  if Qeq_bool b 0 then Raise ZeroDivisionError else Ok (Qred (a / b)).

(** [a // b] on integers (floor division). *)
Definition py_floordiv (a b : Z) : res Z :=
  if b =? 0 then Raise ZeroDivisionError else Ok (a / b).

(** [int(x)] on a float: truncation towards zero. *)
Definition py_int_of_float (x : Q) : Z :=
  Z.quot (Qnum x) (Zpos (Qden x)).

(** [a >= b] where [b] may be [None]: ordering a number against [None] is a
    [TypeError]. *)
Definition py_ge_int (a : Z) (b : option Z) : res bool :=
  match b with
  | Some b => Ok (b <=? a)
  | None =>
      Raise (TypeError "'>=' not supported between instances of 'int' and 'NoneType'")
  end.

Definition py_ge_float (a : Q) (b : option Q) : res bool :=
  match b with
  | Some b => Ok (Qle_bool b a)
  | None =>
      Raise (TypeError "'>=' not supported between instances of 'float' and 'NoneType'")
  end.

(** [a // b] where [b] may be [None]. *)
Definition py_floordiv_opt (a : Z) (b : option Z) : res Z :=
  match b with
  | Some b => py_floordiv a b
  | None =>
      Raise (TypeError "unsupported operand type(s) for //: 'int' and 'NoneType'")
  end.

(** [set(a) + set(b)]: the set type defines no addition, so evaluating the
    expression raises whatever the two sets hold. *)
Definition py_set_add (a b : gset string) : res (gset string) :=
  Raise (TypeError "unsupported operand type(s) for +: 'set' and 'set'").

(** [for x in items: body(x)] for a body that only checks. *)
Fixpoint for_each {A : Type} (items : list A) (body : A -> res unit)
  : res unit :=
  match items with
  | [] => Ok tt
  | x :: rest => _ ← body x; for_each rest body
  end.

(** The truth value of an optional boolean ([None] is false). *)
Definition truthy (b : option bool) : bool :=
  match b with Some true => true | _ => false end.

(** A finite generator: what it yields, and the exception that ends it. *)
Definition gen (A : Type) : Type := (list A * option exn)%type.

Definition gen_yield {A : Type} (a : A) (g : gen A) : gen A :=
  (a :: fst g, snd g).

Definition gen_raise {A : Type} (e : exn) : gen A := ([], Some e).

Definition gen_done {A : Type} : gen A := ([], None).

(** [for x in g: yield from body(x)] where [body] computes one item or
    raises: the consumer handles each item before the generator resumes. *)
Fixpoint gen_for {A B : Type} (items : list A) (stop : option exn)
  (body : A -> res B) : gen B :=
  match items with
  | [] => ([], stop)
  | x :: rest =>
      match body x with
      | Ok b => gen_yield b (gen_for rest stop body)
      | Raise e => gen_raise e
      end
  end.

Definition PROVIDERS : list string := ["aws"; "gcp"].
Definition ARCHITECTURES : list string := ["x64"; "arm64"].

Definition FIELDS : list string :=
  [ "cloud"; "command"; "container"; "cores_per_task"; "cpu"; "cycle_time";
    "disk_size"; "imageset"; "macros"; "metal"; "minimum_memory_per_core";
    "name"; "parents"; "platform"; "scopes"; "tasks" ].

Definition CPU_ALIASES : list (string * string) :=
  [ ("x86_64", "x64"); ("amd64", "x64"); ("x86-64", "x64"); ("x64", "x64");
    ("arm64", "arm64"); ("aarch64", "arm64") ].

(** [x in s] for a frozen set of names and a value that may be [None]. *)
Definition py_in (x : option string) (s : list string) : bool :=
  match x with
  | Some v => bool_decide (v ∈ s)
  | None => false
  end.

(** ** class MachineTypes *)

Module MachineTypes.

(** One machine of the catalogue.  The constructor's check that a spec has
    the keys [cpu] and [ram] and no key besides [metal] is the record type;
    [metal] may be absent. *)
Record spec : Type := Spec {
  cpu : Z;
  ram : Q;
  metal : option bool
}.

Definition machines : Type := list (string * spec).
Definition machines_data : Type := list (string * list (string * machines)).

Record t : Type := Build { _data : machines_data }.

(** [MachineTypes.__init__] *)
Definition __init__ (data : machines_data) : res t :=
  _ ← for_each data (fun item : string * list (string * machines) =>
         let '(provider, provider_archs) := item in
         _ ← py_assert (bool_decide (provider ∈ PROVIDERS))
               ("unknown provider: " +:+ provider);
         for_each provider_archs (fun item : string * machines =>
           let '(arch, _) := item in
           py_assert (bool_decide (arch ∈ ARCHITECTURES))
             ("unknown architecture: " +:+ provider +:+ "." +:+ arch)));
  Ok (Build data).

(** [MachineTypes.cpus] *)
Definition cpus (self : t) (provider architecture : option string)
  (machine : string) : res Z :=
  archs ← dict_get_opt (_data self) provider;
  ms ← dict_get_opt archs architecture;
  s ← dict_get ms machine;
  Ok (cpu s).

(** The test the loop of [filter] makes on one machine: does it yield the
    name.  The conjunction is evaluated left to right and stops at the first
    false operand, so the division happens only for a machine with enough
    cores. *)
Definition fits (s : spec) (min_cpu : option Z) (min_ram_per_cpu : option Q)
  (metal_required : option bool) : res bool :=
  py_ge_int (cpu s) min_cpu ≫= fun enough_cpu : bool =>
  if enough_cpu then
    per_cpu ← py_truediv (ram s) (inject_Z (cpu s));
    py_ge_float per_cpu min_ram_per_cpu ≫= fun enough_ram : bool =>
    if enough_ram then
      Ok (negb (truthy metal_required)
          || (truthy metal_required && default false (metal s)))
    else Ok false
  else Ok false.

Fixpoint filter_loop (ms : machines) (min_cpu : option Z)
  (min_ram_per_cpu : option Q) (metal_required : option bool) : gen string :=
  match ms with
  | [] => gen_done
  | (name, s) :: rest =>
      match fits s min_cpu min_ram_per_cpu metal_required with
      | Ok true =>
          gen_yield name (filter_loop rest min_cpu min_ram_per_cpu metal_required)
      | Ok false => filter_loop rest min_cpu min_ram_per_cpu metal_required
      | Raise e => gen_raise e
      end
  end.

(** [MachineTypes.filter] *)
Definition filter (self : t) (provider architecture : option string)
  (min_cpu : option Z) (min_ram_per_cpu : option Q)
  (metal_required : option bool) : gen string :=
  match (archs ← dict_get_opt (_data self) provider;
         dict_get_opt archs architecture) with
  | Ok ms => filter_loop ms min_cpu min_ram_per_cpu metal_required
  | Raise e => gen_raise e
  end.

End MachineTypes.

(** ** Pool documents *)

(** A pool document as [yaml.safe_load] returns it: a mapping with exactly
    the keys of [FIELDS] (the check on the key set at the head of
    [PoolConfiguration.__init__] is the record type), sizes and times still
    as text. *)
Module Data.

Record t : Type := Build {
  cloud : option string;
  command : list string;
  container : option string;
  cores_per_task : option Z;
  cpu : option string;
  cycle_time : option string;
  disk_size : option string;
  imageset : option string;
  macros : gmap string string;
  metal : option bool;
  minimum_memory_per_core : option string;
  name : option string;
  parents : list string;
  platform : option string;
  scopes : list string;
  tasks : option Z
}.

End Data.

(** The pool files on disk: the document at a path, if a file exists
    there. *)
Definition files : Type := gmap string Data.t.

(** ** class PoolConfiguration *)

Module PoolConfiguration.

Import Text.

(** The attributes of an instance.  The file name and the pool id built
    from it play no part in resolution and are left out. *)
Record t : Type := Build {
  cloud : option string;
  command : list string;
  container : option string;
  cores_per_task : option Z;
  cpu : option string;
  cycle_time : option Z;
  disk_size : option Z;
  imageset : option string;
  macros : gmap string string;
  metal : option bool;
  minimum_memory_per_core : option Q;
  name : option string;
  parents : list string;
  platform : option string;
  scopes : list string;
  tasks : option Z
}.

(** [PoolConfiguration.alias_cpu] *)
Definition alias_cpu (cpu_name : string) : res string :=
  dict_get CPU_ALIASES (lower cpu_name).

(** The alternation  \d+\.\d* | \.\d+ | \d+  at the head of [s]: the text
    of the group and what follows it.  The alternatives are tried in order
    and each repetition is greedy; no later part of the pattern can fail, so
    the first alternative that matches is the one kept. *)
Definition match_number (s : string) : option (string * string) :=
  let '(ip, r) := span is_digit s in
  match r with
  | String "." r' =>
      let '(fp, r'') := span is_digit r' in
      if is_empty ip && is_empty fp then None
      else Some (ip +:+ String "." fp, r'')
  | _ => if is_empty ip then None else Some (ip, r)
  end.

(** [re.match] of the size pattern, here token by token,
      \s* ( \d+\.\d* | \.\d+ | \d+ ) \s* ( [kmgt]? ) b? \s*
    under [re.IGNORECASE]: groups 1 and 2 and the text after the end of the
    match, or [None].  [re.match] anchors the pattern at the start of [size]
    only. *)
Definition match_size (size : string) : option (string * string * string) :=
  match match_number (skip is_space size) with
  | None => None
  | Some (g1, s2) =>
      let '(g2, s4) := opt (in_class_i "kmgt") (skip is_space s2) in
      let '(_, s5) := opt (in_class_i "b") s4 in
      Some (g1, g2, skip is_space s5)
  end.

Definition size_multipliers : list (string * Z) :=
  [ ("", 1); ("k", 1024); ("m", 1024 * 1024); ("g", 1024 * 1024 * 1024);
    ("t", 1024 * 1024 * 1024 * 1024) ].

(** [PoolConfiguration.parse_size(size, divisor)] *)
Definition parse_size (size : string) (divisor : Q) : res Q :=
  match match_size size with
  | None =>
      Raise (AssertionError
               "size should be a number followed by optional si prefix")
  | Some (g1, g2, _) =>
      result ← py_float g1;
      multiplier ← dict_get size_multipliers (lower g2);
      py_truediv (result * inject_Z multiplier) divisor
  end.

(** [re.match] of the time pattern, here token by token,
      \s* ( \d+ ) \s* ( [wdhms]? ) \s* ( .* )
    under [re.IGNORECASE]: groups 1, 2 and 3, or [None].  Every repetition is
    greedy and everything after the digits can match the empty text, so the
    greedy choices are the match. *)
Definition match_time (time : string) : option (string * string * string) :=
  let '(g1, s2) := span is_digit (skip is_space time) in
  if is_empty g1 then None
  else
    let '(g2, s4) := opt (in_class_i "wdhms") (skip is_space s2) in
    Some (g1, g2, fst (span is_dot (skip is_space s4))).

Definition time_multipliers : list (string * Z) :=
  [ ("w", 7 * 24 * 60 * 60); ("d", 24 * 60 * 60); ("h", 60 * 60); ("m", 60);
    ("s", 1) ].

(** How one pass through the body of the [while] loop ends. *)
Inductive loop_ctl : Type :=
| Break
| Continue (result : Z) (time : string).

(** The body of the [while time:] loop of [parse_time], entered with [time]
    not empty.  A pass that continues has set [got_anything] to [True]. *)
Definition parse_time_body (time : string) (result : Z) (got_anything : bool)
  : res loop_ctl :=
  let m := match_time time in
  _ ← py_assert (got_anything || bool_decide (is_Some m))
        "time should be a number followed by optional unit";
  match m with
  | None => Ok Break
  | Some (g1, g2, g3) =>
      multiplier ←
        (if negb (is_empty g2) then dict_get time_multipliers (lower g2)
         else
           _ ← py_assert (is_empty g3) "trailing data";
           _ ← py_assert (negb got_anything)
                 "multipart time must specify all units";
           Ok 1);
      n ← py_int g1;
      Ok (Continue (result + n * multiplier) g3)
  end.

(** The [while time:] loop of [parse_time]. *)
Equations? parse_time_loop (time : string) (result : Z) (got_anything : bool)
  : res Z by wf (String.length time) lt :=
  parse_time_loop EmptyString result _ := Ok result;
  parse_time_loop time result got_anything
    with inspect (parse_time_body time result got_anything) := {
    | exist _ (Raise e) _ => Raise e
    | exist _ (Ok Break) _ => Ok result
    | exist _ (Ok (Continue result' time')) e =>
        parse_time_loop time' result' true }.
Proof.
  (* Group 3 of a match is strictly shorter than the text matched. *)
  clear parse_time_loop.
  change (String.length time' < String.length time)%nat.
  change (String a s) with time in e. clearbody time. clear a s.
  assert (forall p x,
            (String.length (fst (span p x)) + String.length (snd (span p x)))%nat
            = String.length x) as span_length.
  { intros p x. induction x as [|c r IH]; simpl; [reflexivity|].
    destruct (p c); simpl; [|reflexivity].
    destruct (span p r) as [x y]; simpl in *; lia. }
  assert (forall p x,
            (String.length (snd (opt p x)) <= String.length x)%nat)
    as opt_length.
  { intros p x. destruct x as [|c r]; simpl; [lia|].
    destruct (p c); simpl; lia. }
  revert e.
  unfold parse_time_body, match_time, skip.
  pose proof (span_length is_space time) as H1.
  destruct (span is_space time) as [w1 s1]; simpl in H1 |- *.
  pose proof (span_length is_digit s1) as H2.
  destruct (span is_digit s1) as [d s2]; simpl in H2 |- *.
  destruct d as [|c d]; simpl.
  { destruct (py_assert _ _); cbn; discriminate. }
  pose proof (span_length is_space s2) as H3.
  destruct (span is_space s2) as [w2 s3]; simpl in H3 |- *.
  pose proof (opt_length (in_class_i "wdhms") s3) as H4.
  destruct (opt (in_class_i "wdhms") s3) as [u s4]; simpl in H4 |- *.
  pose proof (span_length is_space s4) as H5.
  destruct (span is_space s4) as [w3 s5]; simpl in H5 |- *.
  pose proof (span_length is_dot s5) as H6.
  destruct (span is_dot s5) as [g r]; simpl in H6 |- *.
  destruct (py_assert (got_anything || _) _); cbn; [|discriminate].
  destruct (if negb (is_empty u) then _ else _); cbn; [|discriminate].
  destruct (py_int _); cbn; [|discriminate].
  intros [= _ <-]. cbn [String.length] in H2. lia.
Qed.

(** [PoolConfiguration.parse_time(time, divisor)] *)
Definition parse_time (time : string) (divisor : Q) : res Q :=
  result ← parse_time_loop time 0 false;
  py_truediv (inject_Z result) divisor.

(** An optional field put through a parser. *)
Definition parse_opt {A B : Type} (f : A -> res B) (x : option A)
  : res (option B) :=
  match x with
  | None => Ok None
  | Some v => r ← f v; Ok (Some r)
  end.

(** The attributes as [__init__] sets them before it resolves the parents
    (everything up to the call of [_flatten]).  The assertion that the key
    cloud is present holds of every document of type [Data.t]; the names in
    the message of the assertion that follows come in the iteration order of
    the frozen set. *)
Definition init_fields (data : Data.t) : res t :=
  _ ← py_assert (bool_decide (is_Some (Data.name data)))
        "name is required for every configuration";
  minimum_memory_per_core ←
    parse_opt (fun s => one_g ← parse_size "1g" 1; parse_size s one_g)
      (Data.minimum_memory_per_core data);
  disk_size ←
    parse_opt (fun s => one_g ← parse_size "1g" 1;
                        x ← parse_size s one_g; Ok (py_int_of_float x))
      (Data.disk_size data);
  cycle_time ←
    parse_opt (fun s => x ← parse_time s 1; Ok (py_int_of_float x))
      (Data.cycle_time data);
  cpu ←
    parse_opt (fun c => cpu ← alias_cpu c;
                        _ ← py_assert (bool_decide (cpu ∈ ARCHITECTURES)) "";
                        Ok cpu)
      (Data.cpu data);
  _ ← py_assert (py_in (Data.cloud data) PROVIDERS)
        "Invalid cloud - use aws,gcp";
  Ok {| cloud := Data.cloud data;
        command := Data.command data;
        container := Data.container data;
        cores_per_task := Data.cores_per_task data;
        cpu := cpu;
        cycle_time := cycle_time;
        disk_size := disk_size;
        imageset := Data.imageset data;
        macros := Data.macros data;
        metal := Data.metal data;
        minimum_memory_per_core := minimum_memory_per_core;
        name := Data.name data;
        parents := Data.parents data;
        platform := Data.platform data;
        scopes := Data.scopes data;
        tasks := Data.tasks data |}.

(** [PoolConfiguration.is_complete]: [attr_is_None self field] is
    [getattr(self, field) is None].  The list and dictionary attributes are
    slices and copies made by [__init__], never [None]. *)
Definition is_None {A : Type} (x : option A) : bool :=
  match x with None => true | Some _ => false end.

Definition attr_is_None (self : t) (field : string) : res bool :=
  dict_get
    [ ("cloud", is_None (cloud self)); ("command", false);
      ("container", is_None (container self));
      ("cores_per_task", is_None (cores_per_task self));
      ("cpu", is_None (cpu self)); ("cycle_time", is_None (cycle_time self));
      ("disk_size", is_None (disk_size self));
      ("imageset", is_None (imageset self)); ("macros", false);
      ("metal", is_None (metal self));
      ("minimum_memory_per_core", is_None (minimum_memory_per_core self));
      ("name", is_None (name self)); ("parents", false);
      ("platform", is_None (platform self)); ("scopes", false);
      ("tasks", is_None (tasks self)) ]
    field.

Definition is_complete (self : t) : res unit :=
  for_each FIELDS (fun field =>
    none ← attr_is_None self field;
    py_assert (negb none) "").

(** The first loop of the body of [_flatten]: an attribute that is [None]
    takes the parent's value. *)
Definition inherit {A : Type} (mine theirs : option A) : option A :=
  match mine with
  | None => theirs
  | Some _ => mine
  end.

Definition overwrite_unset (self parent_obj : t) : t :=
  {| cloud := inherit (cloud self) (cloud parent_obj);
     command := command self;
     container := inherit (container self) (container parent_obj);
     cores_per_task := inherit (cores_per_task self) (cores_per_task parent_obj);
     cpu := inherit (cpu self) (cpu parent_obj);
     cycle_time := inherit (cycle_time self) (cycle_time parent_obj);
     disk_size := inherit (disk_size self) (disk_size parent_obj);
     imageset := inherit (imageset self) (imageset parent_obj);
     macros := macros self;
     metal := inherit (metal self) (metal parent_obj);
     minimum_memory_per_core :=
       inherit (minimum_memory_per_core self)
         (minimum_memory_per_core parent_obj);
     name := inherit (name self) (name parent_obj);
     parents := parents self;
     platform := inherit (platform self) (platform parent_obj);
     scopes := scopes self;
     tasks := inherit (tasks self) (tasks parent_obj) |}.

(** [d.update(other)]: the entries of [other] replace those of [d]. *)
Definition dict_update (d other : gmap string string) : gmap string string :=
  other ∪ d.

(** The second loop: a copy of the parent's macros updated with the
    child's. *)
Definition merge_macros (self parent_obj : t) : t :=
  let copy := macros parent_obj in
  let copy := dict_update copy (macros self) in
  {| cloud := cloud self; command := command self;
     container := container self; cores_per_task := cores_per_task self;
     cpu := cpu self; cycle_time := cycle_time self;
     disk_size := disk_size self; imageset := imageset self;
     macros := copy;
     metal := metal self;
     minimum_memory_per_core := minimum_memory_per_core self;
     name := name self; parents := parents self; platform := platform self;
     scopes := scopes self; tasks := tasks self |}.

Definition set_scopes (v : list string) (self : t) : t :=
  {| cloud := cloud self; command := command self;
     container := container self; cores_per_task := cores_per_task self;
     cpu := cpu self; cycle_time := cycle_time self;
     disk_size := disk_size self; imageset := imageset self;
     macros := macros self; metal := metal self;
     minimum_memory_per_core := minimum_memory_per_core self;
     name := name self; parents := parents self; platform := platform self;
     scopes := v; tasks := tasks self |}.

Definition set_command (v : list string) (self : t) : t :=
  {| cloud := cloud self; command := v;
     container := container self; cores_per_task := cores_per_task self;
     cpu := cpu self; cycle_time := cycle_time self;
     disk_size := disk_size self; imageset := imageset self;
     macros := macros self; metal := metal self;
     minimum_memory_per_core := minimum_memory_per_core self;
     name := name self; parents := parents self; platform := platform self;
     scopes := scopes self; tasks := tasks self |}.

(** The third loop: [list(set(self.scopes) + set(parent_obj.scopes))]. *)
Definition merge_scopes (self parent_obj : t) : res t :=
  union ← py_set_add (list_to_set (scopes self))
             (list_to_set (scopes parent_obj));
  Ok (set_scopes (elements union) self).

(** The fourth loop: an empty command is replaced by a copy of the
    parent's. *)
Definition merge_command (self parent_obj : t) : t :=
  match command self with
  | [] => set_command (command parent_obj) self
  | _ :: _ => self
  end.

(** What the body of the loop of [_flatten] does to [self] once the parent
    is loaded. *)
Definition merge_parent (self parent_obj : t) : res t :=
  let self := overwrite_unset self parent_obj in
  let self := merge_macros self parent_obj in
  self ← merge_scopes self parent_obj;
  Ok (merge_command self parent_obj).

Definition cyclic_message (parent : string) : string :=
  "attempt to resolve cyclic configuration, " +:+ parent
  +:+ " already encountered".

Section Resolution.

(** [self.from_file]: the loading of a parent, which constructs it and so
    resolves its own parents.  The set of names is one object, which the
    callee adds to; it is handed back with the instance. *)
Variable load : string -> option (gset string) -> res (t * gset string).

(** The loop of [PoolConfiguration._flatten] over the parents still to be
    visited. *)
Fixpoint flatten_loop (todo : list string) (self : t)
  (flattened : gset string) : res (t * gset string) :=
  match todo with
  | [] => Ok (self, flattened)
  | parent :: rest =>
      _ ← py_assert (bool_decide (parent ∉ flattened))
            (cyclic_message parent);
      let flattened := {[parent]} ∪ flattened in
      loaded ← load parent (Some flattened);
      self ← merge_parent self (fst loaded);
      flatten_loop rest self (snd loaded)
  end.

(** [PoolConfiguration._flatten] *)
Definition _flatten (self : t) (flattened : gset string)
  : res (t * gset string) :=
  flatten_loop (parents self) self flattened.

(** [PoolConfiguration.__init__]; [_flattened] defaults to [None]. *)
Definition __init__ (data : Data.t) (_flattened : option (gset string))
  : res (t * gset string) :=
  self ← init_fields data;
  _flatten self (default ∅ _flattened).

End Resolution.

(** [PoolConfiguration.from_file].  Each load of a parent nests one
    construction inside another; [depth] bounds the nesting as the
    interpreter's recursion limit does. *)
Fixpoint from_file (depth : nat) (fs : files) (pool_yml : string)
  (_flattened : option (gset string)) : res (t * gset string) :=
  match depth with
  | O => Raise RecursionError
  | S depth' =>
      match fs !! pool_yml with
      | None => Raise (AssertionError "Invalid file")
      | Some data => __init__ (from_file depth' fs) data _flattened
      end
  end.

(** [PoolConfiguration.get_machine_list] *)
Definition get_machine_list (self : t) (machine_types : MachineTypes.t)
  : gen (string * Z) :=
  let names :=
    MachineTypes.filter machine_types (cloud self) (cpu self)
      (cores_per_task self) (minimum_memory_per_core self) (metal self) in
  gen_for (fst names) (snd names) (fun machine =>
    cpus ← MachineTypes.cpus machine_types (cloud self) (cpu self) machine;
    capacity ← py_floordiv_opt cpus (cores_per_task self);
    Ok (machine, capacity)).

End PoolConfiguration.

(** ** The tasks of a pool *)

(** The values a task definition is made of. *)
#[local] Unset Elimination Schemes.

Inductive value : Type :=
| VNone
| VBool (b : bool)
| VInt (n : Z)
| VStr (s : string)
| VList (items : list value)
| VDict (items : list (string * value)).

#[local] Set Elimination Schemes.

Definition value_of_str (x : option string) : value :=
  match x with Some s => VStr s | None => VNone end.

Definition value_of_int (x : option Z) : value :=
  match x with Some n => VInt n | None => VNone end.

(** A replacement field of an f-string for a value that may be [None]. *)
Definition py_format {A : Type} (str : A -> string) (x : option A) : string :=
  match x with Some a => str a | None => "None" end.

(** [a + b] where [a] may be [None]. *)
Definition py_add_opt (a : option Z) (b : Z) : res Z :=
  match a with
  | Some a => Ok (a + b)
  | None =>
      Raise (TypeError "unsupported operand type(s) for +: 'NoneType' and 'int'")
  end.

(** [range(start, stop)] *)
Definition py_range (start stop : Z) : list Z :=
  map (fun k => start + Z.of_nat k) (seq 0 (Z.to_nat (stop - start))).

Definition newline : string := String "010" EmptyString.

Definition DESCRIPTION : string :=
  "*DO NOT EDIT* - This resource is configured automatically."
  +:+ newline +:+ newline +:+ "Fuzzing workers generated by decision task".

(** What [build_tasks] takes from outside [pool.py]: three constants of the
    package [decision], and the functions of [taskcluster.utils] and
    [datetime] it calls.  [slugId k] is the identifier the call number [k]
    of [slugId()] returns; [add_seconds now c] is
    [now + timedelta(seconds=c)] for an integer [c]. *)
Record externals : Type := Externals {
  OWNER_EMAIL : string;
  PROVISIONER_ID : string;
  SCHEDULER_ID : string;
  datetime : Type;
  slugId : nat -> string;
  stringDate : datetime -> string;
  fromNow : string -> datetime -> res datetime;
  add_seconds : datetime -> Z -> res datetime
}.

Section Decision.

Variable ext : externals.

(** [self.id], built by [__init__] from the platform and the file name once
    the parents are resolved. *)
Definition pool_id (self : PoolConfiguration.t) (filename : string) : string :=
  py_format (fun s => s) (PoolConfiguration.platform self)
  +:+ "-" +:+ filename.

(** [now + timedelta(seconds=seconds)] where [seconds] may be [None]. *)
Definition py_deadline (now : datetime ext) (seconds : option Z)
  : res (datetime ext) :=
  match seconds with
  | Some c => add_seconds ext now c
  | None =>
      Raise (TypeError "unsupported type for timedelta seconds component: NoneType")
  end.

(** The dictionary built in the body of the loop of [build_tasks]. *)
Definition task (self : PoolConfiguration.t) (filename : string)
  (parent_task_id : string) (now : datetime ext) (i : Z) : res value :=
  deadline ← py_deadline now (PoolConfiguration.cycle_time self);
  expires ← fromNow ext "1 month" now;
  Ok (VDict
    [ ("taskGroupId", VStr parent_task_id);
      ("dependencies", VList [VStr parent_task_id]);
      ("created", VStr (stringDate ext now));
      ("deadline", VStr (stringDate ext deadline));
      ("expires", VStr (stringDate ext expires));
      ("extra", VDict []);
      ("metadata", VDict
         [ ("description", VStr DESCRIPTION);
           ("name",
            VStr ("Fuzzing task " +:+ pool_id self filename +:+ " - "
                  +:+ pretty i +:+ "/"
                  +:+ py_format pretty (PoolConfiguration.tasks self)));
           ("owner", VStr (OWNER_EMAIL ext));
           ("source", VStr "https://github.com/MozillaSecurity/fuzzing-tc") ]);
      ("payload", VDict
         [ ("artifacts", VDict []);
           ("cache", VDict []);
           ("capabilities", VDict []);
           ("env", VDict []);
           ("features", VDict [("taskclusterProxy", VBool true)]);
           ("image", value_of_str (PoolConfiguration.container self));
           ("maxRunTime", value_of_int (PoolConfiguration.cycle_time self)) ]);
      ("priority", VStr "high");
      ("provisionerId", VStr (PROVISIONER_ID ext));
      ("workerType", VStr (pool_id self filename));
      ("retries", VInt 1);
      ("routes", VList []);
      ("schedulerId", VStr (SCHEDULER_ID ext));
      ("scopes", VList (map VStr (PoolConfiguration.scopes self)));
      ("tags", VDict []) ]).

(** The loop of [build_tasks] over the numbers still to come; [calls] is
    the number of identifiers drawn so far. *)
Fixpoint build_tasks_loop (self : PoolConfiguration.t) (filename : string)
  (parent_task_id : string) (now : datetime ext) (todo : list Z)
  (calls : nat) : gen (string * value) :=
  match todo with
  | [] => gen_done
  | i :: rest =>
      let task_id := slugId ext calls in
      match task self filename parent_task_id now i with
      | Ok t =>
          gen_yield (task_id, t)
            (build_tasks_loop self filename parent_task_id now rest (S calls))
      | Raise e => gen_raise e
      end
  end.

(** [PoolConfiguration.build_tasks]; [now] is what [datetime.utcnow()]
    returns when the generator starts. *)
Definition build_tasks (self : PoolConfiguration.t) (filename : string)
  (parent_task_id : string) (now : datetime ext) (calls : nat)
  : gen (string * value) :=
  match py_add_opt (PoolConfiguration.tasks self) 1 with
  | Ok stop =>
      build_tasks_loop self filename parent_task_id now (py_range 1 stop) calls
  | Raise e => gen_raise e
  end.

End Decision.

(** * Specification-side definitions and example inputs *)

Import Text.
Import PoolConfiguration.

(** ** Completeness *)

(** Every attribute that can be [None] is set. *)
Definition non_null (self : PoolConfiguration.t) : Prop :=
  is_Some (cloud self) /\ is_Some (container self)
  /\ is_Some (cores_per_task self) /\ is_Some (cpu self)
  /\ is_Some (cycle_time self) /\ is_Some (disk_size self)
  /\ is_Some (imageset self) /\ is_Some (metal self)
  /\ is_Some (minimum_memory_per_core self) /\ is_Some (name self)
  /\ is_Some (platform self) /\ is_Some (tasks self).


(** A complete pool without parents, as the root of every ancestry is. *)
Definition complete_root : PoolConfiguration.t :=
  {| cloud := Some "aws"; command := ["run"]; container := Some "image";
     cores_per_task := Some 3; cpu := Some "x64"; cycle_time := Some 3600;
     disk_size := Some 120; imageset := Some "generic";
     macros := {[ "A" := "1" ]}; metal := Some false;
     minimum_memory_per_core := Some 1%Q; name := Some "root";
     parents := []; platform := Some "linux"; scopes := ["scope"];
     tasks := Some 2 |}.

(** ** Documents and files *)

(** The exception of the scopes loop. *)
Definition set_plus_TypeError : exn :=
  TypeError "unsupported operand type(s) for +: 'set' and 'set'".

(** A document with every field given and the parents listed. *)
Definition full_doc (name : string) (parents : list string)
  (cores_per_task : Z) (macros : gmap string string) (scopes : list string)
  : Data.t :=
  {| Data.cloud := Some "aws"; Data.command := ["run"];
     Data.container := Some "image";
     Data.cores_per_task := Some cores_per_task;
     Data.cpu := Some "x86_64"; Data.cycle_time := Some "1h30m";
     Data.disk_size := Some "120g"; Data.imageset := Some "generic";
     Data.macros := macros; Data.metal := Some false;
     Data.minimum_memory_per_core := Some "1g"; Data.name := Some name;
     Data.parents := parents; Data.platform := Some "linux";
     Data.scopes := scopes; Data.tasks := Some 2 |}.

(** A document that gives its name and cloud and leaves the rest to its
    parents. *)
Definition sparse_doc (name : string) (parents : list string)
  (macros : gmap string string) (scopes : list string) : Data.t :=
  {| Data.cloud := Some "aws"; Data.command := [];
     Data.container := None; Data.cores_per_task := None;
     Data.cpu := None; Data.cycle_time := None;
     Data.disk_size := None; Data.imageset := None;
     Data.macros := macros; Data.metal := None;
     Data.minimum_memory_per_core := None; Data.name := Some name;
     Data.parents := parents; Data.platform := None;
     Data.scopes := scopes; Data.tasks := None |}.

Definition root_doc : Data.t := full_doc "root" [] 3 {[ "A" := "1" ]} ["s"].

(** Child and parent both declare scopes. *)
Definition fs_scopes : files :=
  {[ "child" := sparse_doc "child" ["parent"] ∅ ["a"; "b"];
     "parent" := full_doc "parent" [] 4 ∅ ["b"; "c"] ]}.

(** The child and parent of the merge example: the child leaves
    [cores_per_task] unset and defines macro A, the parent sets
    [cores_per_task] to 4 and defines macros A and B. *)
Definition merge_child : Data.t :=
  sparse_doc "child" ["parent"] {[ "A" := "1" ]} [].

Definition merge_parent_doc : Data.t :=
  full_doc "parent" [] 4 {[ "A" := "0"; "B" := "2" ]} [].

Definition fs_merge : files :=
  {[ "child" := merge_child; "parent" := merge_parent_doc ]}.

(** A diamond: the root has parents a and b, each of which has the one
    parent g. *)
Definition fs_diamond : files :=
  {[ "root" := sparse_doc "root" ["a"; "b"] ∅ [];
     "a" := sparse_doc "a" ["g"] ∅ [];
     "b" := sparse_doc "b" ["g"] ∅ [];
     "g" := full_doc "g" [] 4 ∅ [] ]}.

(** A cycle: a has parent b and b has parent a. *)
Definition fs_cycle : files :=
  {[ "a" := sparse_doc "a" ["b"] ∅ [];
     "b" := sparse_doc "b" ["a"] ∅ [] ]}.

(** ** Machine selection *)

(** The selection rule in the specification's words: enough cores, enough
    memory per core, and bare metal where it is required (a spec without the
    flag counts as not bare metal). *)
Definition meets_query (min_cores : Z) (min_ram_per_core : Q)
  (require_metal : bool) (s : MachineTypes.spec) : bool :=
  (min_cores <=? MachineTypes.cpu s)
  && Qle_bool min_ram_per_core
       (MachineTypes.ram s / inject_Z (MachineTypes.cpu s))
  && (negb require_metal || default false (MachineTypes.metal s)).

(** The catalogue of the specification's example: one machine with 8 cores,
    32 units of memory and no bare metal. *)
Definition example_catalog : MachineTypes.t :=
  MachineTypes.Build
    [ ("aws", [ ("x64", [ ("m1", MachineTypes.Spec 8 32 (Some false)) ]) ]) ].

(** A catalogue with one machine of 8 cores, and one with a machine of 2
    cores; [complete_root] asks for 3 cores per task. *)
Definition eight_core_catalog : MachineTypes.t :=
  MachineTypes.Build
    [ ("aws", [ ("x64", [ ("m8", MachineTypes.Spec 8 32 None) ]) ]) ].

Definition two_core_catalog : MachineTypes.t :=
  MachineTypes.Build
    [ ("aws", [ ("x64", [ ("m2", MachineTypes.Spec 2 8 None) ]) ]) ].

(** ** Texts *)

#[local] Arguments String.append !_ _ / : simpl nomatch.

(** [p] does not hold of the first character of [s], if it has one. *)
Definition stops (p : ascii -> bool) (s : string) : bool :=
  match s with
  | EmptyString => true
  | String c _ => negb (p c)
  end.

(** ** Size texts *)

(** A numeric literal: digits, digits and a point, digits on both sides of a
    point, or a point and digits. *)
Definition number_text (ip fp : string) (point : bool) : string :=
  if point then ip +:+ String "." fp else ip.

Definition number_ok (ip fp : string) (point : bool) : bool :=
  all is_digit ip && all is_digit fp
  && (if point then negb (is_empty ip && is_empty fp)
      else negb (is_empty ip) && is_empty fp).

(** The text starts, after white space, with a numeric literal. *)
Definition starts_with_number (s : string) : Prop :=
  exists ws ip fp point rest,
    s = ws +:+ number_text ip fp point +:+ rest
    /\ all is_space ws = true /\ number_ok ip fp point = true.

(** The binary multiple an SI prefix stands for: 1024 to the power 0 to 4. *)
Definition binary_multiple (prefix : string) : Z :=
  let p := lower prefix in
  1024 ^ (if String.eqb p "k" then 1 else if String.eqb p "m" then 2
          else if String.eqb p "g" then 3 else if String.eqb p "t" then 4
          else 0).

Definition prefix_text (u : option ascii) : string :=
  match u with
  | Some c => String c ""
  | None => ""
  end.

(** What may follow the number and the white space after it: an SI prefix
    and then anything, or a text that is empty or starts with a character
    that is neither white space, a digit, a point nor an SI prefix. *)
Definition after_number (u : option ascii) (rest : string) : bool :=
  match u with
  | Some c => in_class_i "kmgt" c
  | None =>
      stops (fun c => is_space c || is_digit c || Ascii.eqb c "."
                      || in_class_i "kmgt" c) rest
  end.

(** The message of the assertion of [parse_size]. *)
Definition size_message : string :=
  "size should be a number followed by optional si prefix".

(** The number a literal denotes. *)
Definition number_value (ip fp : string) (point : bool) : Q :=
  if point then decimal ip fp else inject_Z (int_acc 0 ip).

(** The texts made of a numeric literal, an optional SI prefix and an
    optional b, with optional white space around the parts. *)
Definition size_string (s : string) : Prop :=
  exists ws ip fp point ws2 u b ws3,
    s = ws +:+ number_text ip fp point +:+ ws2 +:+ prefix_text u +:+ b +:+ ws3
    /\ all is_space ws = true /\ number_ok ip fp point = true
    /\ all is_space ws2 = true
    /\ from_option (in_class_i "kmgt") true u = true
    /\ (b = "" \/ b = "b" \/ b = "B") /\ all is_space ws3 = true.

(** The characters such a text is made of. *)
Definition size_char (c : ascii) : bool :=
  is_space c || is_digit c || Ascii.eqb c "." || in_class_i "kmgtb" c.

(** ** Time texts *)





(** The seconds in a week, day, hour, minute and second. *)
Definition unit_seconds (u : ascii) : Z :=
  let l := lower_ascii u in
  if Ascii.eqb l "w" then 7 * 24 * 60 * 60
  else if Ascii.eqb l "d" then 24 * 60 * 60
  else if Ascii.eqb l "h" then 60 * 60
  else if Ascii.eqb l "m" then 60
  else if Ascii.eqb l "s" then 1
  else 0.





(** The message of the last assertion of the unit-less branch. *)
Definition multipart_message : string :=
  "multipart time must specify all units".

(** ** More example inputs *)

(** A pool with every attribute set but zero cores per task. *)
Definition zero_cores_pool : PoolConfiguration.t :=
  {| cloud := Some "aws"; command := ["run"]; container := Some "image";
     cores_per_task := Some 0; cpu := Some "x64"; cycle_time := Some 3600;
     disk_size := Some 120; imageset := Some "generic";
     macros := ∅; metal := Some false;
     minimum_memory_per_core := Some 1%Q; name := Some "zero";
     parents := []; platform := Some "linux"; scopes := [];
     tasks := Some 2 |}.

(** Every scalar field of a document is given. *)
Definition document_complete (data : Data.t) : Prop :=
  is_Some (Data.cloud data) /\ is_Some (Data.container data)
  /\ is_Some (Data.cores_per_task data) /\ is_Some (Data.cpu data)
  /\ is_Some (Data.cycle_time data) /\ is_Some (Data.disk_size data)
  /\ is_Some (Data.imageset data) /\ is_Some (Data.metal data)
  /\ is_Some (Data.minimum_memory_per_core data) /\ is_Some (Data.name data)
  /\ is_Some (Data.platform data) /\ is_Some (Data.tasks data).

(** A document whose parent is not on disk, and one that names itself. *)
Definition fs_missing_parent : files :=
  {[ "child" := sparse_doc "child" ["missing"] ∅ [] ]}.

Definition fs_self_parent : files :=
  {[ "loop" := sparse_doc "loop" ["loop"] ∅ [] ]}.

(** ** Parser outcomes *)

(** The message of the first assertion of the loop of [parse_time]. *)
Definition time_message : string :=
  "time should be a number followed by optional unit".

(** The exceptions [parse_time] raises on a text it rejects. *)
Definition time_errors : list exn :=
  [ AssertionError time_message; AssertionError "trailing data";
    AssertionError multipart_message ].

(** ** Reading a task *)

(** [v[key]] on a value. *)
Definition value_get (key : string) (v : value) : res value :=
  match v with
  | VDict items => dict_get items key
  | _ => Raise (TypeError "object is not subscriptable")
  end.

(** [task[a][b]] *)
Definition value_get2 (a b : string) (v : value) : res value :=
  inner ← value_get a v; value_get b inner.

(** The name the workflow logs for a task: [task["metadata"]["name"]]. *)
Definition task_name (t : value) : res value :=
  value_get2 "metadata" "name" t.

(** The name of the task of number [i] out of [n] of the pool [pool]. *)
Definition numbered_name (pool : string) (i n : Z) : string :=
  "Fuzzing task " +:+ pool +:+ " - " +:+ pretty i +:+ "/" +:+ pretty n.

(** A clock in seconds with an ISO-free rendering, and identifiers that
    count the calls. *)
Definition example_externals : externals :=
  {| OWNER_EMAIL := "fuzzing@example.org";
     PROVISIONER_ID := "proj-fuzzing";
     SCHEDULER_ID := "-";
     datetime := Z;
     slugId := fun k => "slug" +:+ pretty k;
     stringDate := pretty;
     fromNow := fun _ now => Ok (now + 2592000);
     add_seconds := fun now c => Ok (now + c) |}.

(** * Properties *)

(** ** Results, rationals *)

Lemma bind_Ok {A B : Type} (m : res A) (k : A -> res B) (b : B) :
  m ≫= k = Ok b -> exists a, m = Ok a /\ k a = Ok b.
Proof. destruct m as [a|e]; cbn; [eauto | discriminate]. Qed.

Lemma py_truediv_ok (a b : Q) :
  ~ (b == 0)%Q -> py_truediv a b = Ok (Qred (a / b)).
Proof.
  intros Hb. unfold py_truediv.
  destruct (Qeq_bool b 0) eqn:E; [|reflexivity].
  apply Qeq_bool_iff in E. contradiction.
Qed.

(** ** parse_time on the empty text *)

(** C10: on the empty text [parse_time] never enters its loop (there is
    nothing for the pattern to match) and returns 0 divided by the divisor,
    that is 0.0, for every divisor other than zero and so for the default
    divisor 1; no exception is raised. *)
Theorem parse_time_empty_text (divisor : Q) :
  ~ (divisor == 0)%Q ->
  PoolConfiguration.parse_time "" divisor = Ok 0%Q
  /\ PoolConfiguration.match_time "" = None.
Proof.
  intros Hd. split; [|reflexivity].
  unfold PoolConfiguration.parse_time.
  rewrite PoolConfiguration.parse_time_loop_equation_1.
  unfold mbind, res_bind.
  rewrite py_truediv_ok by exact Hd.
  reflexivity.
Qed.

Lemma parse_time_empty_text_witness :
  PoolConfiguration.parse_time "" 1 = Ok 0%Q
  /\ PoolConfiguration.match_time "" = None.
Proof. apply parse_time_empty_text. discriminate. Defined.

(** ** is_complete *)

Ltac is_complete_case :=
  match goal with
  | |- context [is_None ?x] =>
      destruct x; cbn;
      [| split; [discriminate | intros H; exfalso; decompose [and] H;
                  match goal with
                  | K : is_Some None |- _ => exact (is_Some_None K)
                  end]]
  end.



(** ** Construction and the merge of a parent *)

(** Merging a parent into a child always ends in the scopes loop. *)
Lemma merge_parent_raises (self parent_obj : PoolConfiguration.t) :
  merge_parent self parent_obj = Raise set_plus_TypeError.
Proof. reflexivity. Qed.

(** So the loop of [_flatten] returns only when there is no parent to
    visit. *)
Lemma flatten_loop_ok load todo self flattened r :
  flatten_loop load todo self flattened = Ok r ->
  todo = [] /\ r = (self, flattened).
Proof.
  destruct todo as [|parent rest]; cbn [flatten_loop].
  - intros [= <-]. auto.
  - intros H.
    apply bind_Ok in H as (_ & _ & H).
    apply bind_Ok in H as (loaded & _ & H).
    apply bind_Ok in H as (self' & Hm & _).
    rewrite merge_parent_raises in Hm. discriminate.
Qed.

Lemma init_fields_ok (data : Data.t) (self : PoolConfiguration.t) :
  init_fields data = Ok self ->
  is_Some (Data.name data) /\ name self = Data.name data
  /\ py_in (Data.cloud data) PROVIDERS = true
  /\ cloud self = Data.cloud data /\ parents self = Data.parents data.
Proof.
  unfold init_fields. intros H.
  apply bind_Ok in H as (u1 & Hn & H).
  apply bind_Ok in H as (mm & _ & H).
  apply bind_Ok in H as (ds & _ & H).
  apply bind_Ok in H as (ct & _ & H).
  apply bind_Ok in H as (cp & _ & H).
  apply bind_Ok in H as (u2 & Hc & [= <-]). cbn.
  unfold py_assert in Hn, Hc.
  destruct (bool_decide (is_Some (Data.name data))) eqn:En; [|discriminate].
  destruct (py_in (Data.cloud data) PROVIDERS) eqn:Ec; [|discriminate].
  apply bool_decide_eq_true in En. auto.
Qed.

Lemma py_in_true (x : option string) (s : list string) :
  py_in x s = true -> exists v, x = Some v /\ v ∈ s.
Proof.
  destruct x as [v|]; cbn; [|discriminate].
  intros H. apply bool_decide_eq_true in H. eauto.
Qed.

Lemma inherit_set {A : Type} (mine theirs : option A) :
  is_Some mine -> inherit mine theirs = mine.
Proof. intros [v ->]. reflexivity. Qed.

(** A document that names a parent is never resolved: the construction
    ends in an exception, whatever the files hold. *)
Lemma init_ok_no_parents load data flattened r :
  PoolConfiguration.__init__ load data flattened = Ok r ->
  Data.parents data = [].
Proof.
  unfold PoolConfiguration.__init__, _flatten. intros H.
  apply bind_Ok in H as (self & Hi & H).
  apply init_fields_ok in Hi as (_ & _ & _ & _ & Hp).
  apply flatten_loop_ok in H as [H _]. congruence.
Qed.

(** C9: a document from which a pool is constructed, the root or an
    ancestor, has a name and a cloud that is one of aws and gcp, and the
    pool carries both; construction fails when the name is null or the cloud
    is not one of the two.  When the first loop of [_flatten] runs, the
    child's name and cloud are therefore set and the loop leaves them as
    they are, whatever the parent holds. *)
Theorem name_and_cloud_never_inherited
  (load : string -> option (gset string)
          -> res (PoolConfiguration.t * gset string))
  (data : Data.t) (flattened : option (gset string)) :
  (forall self flattened',
     PoolConfiguration.__init__ load data flattened = Ok (self, flattened') ->
     exists n c, Data.name data = Some n /\ Data.cloud data = Some c
                 /\ c ∈ PROVIDERS /\ name self = Some n /\ cloud self = Some c)
  /\ (Data.name data = None \/ py_in (Data.cloud data) PROVIDERS = false ->
      is_ok (PoolConfiguration.__init__ load data flattened) = false)
  /\ (forall self parent_obj,
        init_fields data = Ok self ->
        is_Some (name self) /\ is_Some (cloud self)
        /\ name (overwrite_unset self parent_obj) = name self
        /\ cloud (overwrite_unset self parent_obj) = cloud self).
Proof.
  split; [|split].
  - intros self fl' H. unfold PoolConfiguration.__init__, _flatten in H.
    apply bind_Ok in H as (self0 & Hi & H).
    apply flatten_loop_ok in H as [_ [= <- _]].
    apply init_fields_ok in Hi as ([n Hn] & Hn' & Hc & Hc' & _).
    apply py_in_true in Hc as (c & Hc & Hin).
    exists n, c. rewrite Hn', Hc'. auto.
  - intros Hbad.
    destruct (PoolConfiguration.__init__ load data flattened) as [r|e] eqn:E;
      [|reflexivity].
    unfold PoolConfiguration.__init__ in E.
    apply bind_Ok in E as (self0 & Hi & _).
    apply init_fields_ok in Hi as ([n Hn] & _ & Hc & _).
    destruct Hbad as [Hbad|Hbad]; congruence.
  - intros self parent_obj Hi.
    apply init_fields_ok in Hi as (Hn & Hn' & Hc & Hc' & _).
    apply py_in_true in Hc as (c & Hc & _).
    assert (is_Some (name self)) as Sn by (rewrite Hn'; exact Hn).
    assert (is_Some (cloud self)) as Sc by (rewrite Hc', Hc; eauto).
    repeat split; auto; cbn; apply inherit_set; assumption.
Qed.

Lemma name_and_cloud_never_inherited_witness :
  exists n c, Data.name root_doc = Some n /\ Data.cloud root_doc = Some c
              /\ c ∈ PROVIDERS.
Proof.
  destruct (name_and_cloud_never_inherited (from_file 0 ∅) root_doc None)
    as [H _].
  destruct (H _ _ eq_refl) as (n & c & Hn & Hc & Hin & _).
  exists n, c. auto.
Defined.

(** ** Resolution with parents *)

(** A load of a document that names a parent never returns. *)
Lemma from_file_parent_fails depth fs pool_yml flattened data :
  fs !! pool_yml = Some data -> Data.parents data <> [] ->
  is_ok (from_file depth fs pool_yml flattened) = false.
Proof.
  intros Hf Hp. destruct depth as [|depth]; cbn; [reflexivity|].
  rewrite Hf.
  destruct (PoolConfiguration.__init__ _ data flattened) as [r|e] eqn:E;
    [|reflexivity].
  apply init_ok_no_parents in E. contradiction.
Qed.

(** C1: the scopes loop computes [set(...) + set(...)], which Python's set
    type does not support.  Resolving a child with scopes a, b whose parent
    has scopes b, c raises a [TypeError] where the claim has the scopes
    a, b, c; and no document that names a parent is ever resolved. *)
Theorem scopes_merge_raises :
  from_file 2 fs_scopes "child" None = Raise set_plus_TypeError
  /\ (forall depth fs pool_yml flattened data,
        fs !! pool_yml = Some data -> Data.parents data <> [] ->
        is_ok (from_file depth fs pool_yml flattened) = false).
Proof. split; [reflexivity | exact from_file_parent_fails]. Qed.

(** What the macros loop leaves: the child's entry where it has one, else
    the parent's. *)
Lemma merge_macros_lookup (self parent_obj : PoolConfiguration.t) (k : string) :
  macros (merge_macros self parent_obj) !! k
  = match macros self !! k with
    | Some v => Some v
    | None => macros parent_obj !! k
    end.
Proof.
  cbn. unfold dict_update. rewrite lookup_union.
  destruct (macros self !! k), (macros parent_obj !! k); reflexivity.
Qed.

(** An attribute adopted from one parent is not replaced by a later one. *)
Lemma inherit_first_wins {A : Type} (mine first later : option A) :
  is_Some first -> inherit (inherit mine first) later = inherit mine first.
Proof. intros [v ->]. destruct mine; reflexivity. Qed.

(** C2: on the merge example the first two loops of [_flatten] leave the
    child with [cores_per_task] 4 and macros A = 1, B = 2, as the claim has
    it, but the scopes loop that follows raises a [TypeError], so the
    resolution yields no pool at all. *)
Theorem merge_example_raises :
  from_file 2 fs_merge "child" None = Raise set_plus_TypeError
  /\ exists child parent_obj flattened,
       init_fields merge_child = Ok child
       /\ from_file 1 fs_merge "parent" (Some {[ "parent" ]})
          = Ok (parent_obj, flattened)
       /\ cores_per_task
            (merge_macros (overwrite_unset child parent_obj) parent_obj)
          = Some 4
       /\ macros (merge_macros (overwrite_unset child parent_obj) parent_obj)
          = {[ "A" := "1"; "B" := "2" ]}.
Proof.
  split; [reflexivity|].
  eexists _, _, _. split; [reflexivity|]. split; [reflexivity|].
  split; [reflexivity|]. vm_compute. reflexivity.
Qed.

(** The parents after the first play no part in the outcome of the loop of
    [_flatten]: it ends while the first is merged. *)
Lemma flatten_loop_first_parent load parent rest self flattened :
  flatten_loop load (parent :: rest) self flattened
  = flatten_loop load [parent] self flattened.
Proof.
  cbn [flatten_loop].
  destruct (py_assert _ _); cbn [mbind res_bind]; [|reflexivity].
  destruct (load parent _); cbn [mbind res_bind]; [|reflexivity].
  rewrite merge_parent_raises. reflexivity.
Qed.

(** A parent whose name is in the set of names already met is refused with
    the assertion that names it, before anything is loaded. *)
Lemma flatten_loop_revisit load parent rest self (flattened : gset string) :
  parent ∈ flattened ->
  flatten_loop load (parent :: rest) self flattened
  = Raise (AssertionError (cyclic_message parent)).
Proof.
  intros Hin. cbn [flatten_loop]. unfold py_assert.
  rewrite bool_decide_eq_false_2 by (intros Hn; exact (Hn Hin)).
  reflexivity.
Qed.

(** C5: in the diamond the walk loads a, then g for a, and the merge of g
    into a raises the [TypeError] of the scopes loop; b is never visited
    (its file may as well be missing), so the second path to g is never
    reported.  In general the parents after the first do not matter.  What
    the loop does report is a parent whose name is already in the set when
    its turn comes, as on the way down the first parents: a, b, a fails on
    b. *)
Theorem diamond_raises_TypeError :
  from_file 4 fs_diamond "root" None = Raise set_plus_TypeError
  /\ from_file 4 (delete "b" fs_diamond) "root" None = Raise set_plus_TypeError
  /\ (forall load parent rest self flattened,
        flatten_loop load (parent :: rest) self flattened
        = flatten_loop load [parent] self flattened)
  /\ (forall load parent rest self (flattened : gset string),
        parent ∈ flattened ->
        flatten_loop load (parent :: rest) self flattened
        = Raise (AssertionError (cyclic_message parent)))
  /\ from_file 4 fs_cycle "a" None
     = Raise (AssertionError (cyclic_message "b")).
Proof.
  split; [vm_compute; reflexivity|]. split; [vm_compute; reflexivity|].
  split; [exact flatten_loop_first_parent|].
  split; [exact flatten_loop_revisit|]. vm_compute. reflexivity.
Qed.

(** ** Machine selection *)

Lemma meets_query_spec min_cores min_ram_per_core require_metal s :
  meets_query min_cores min_ram_per_core require_metal s = true
  <-> min_cores <= MachineTypes.cpu s
      /\ (min_ram_per_core
          <= MachineTypes.ram s / inject_Z (MachineTypes.cpu s))%Q
      /\ (require_metal = false \/ MachineTypes.metal s = Some true).
Proof.
  unfold meets_query. rewrite !andb_true_iff, Z.leb_le, Qle_bool_iff.
  destruct require_metal, (MachineTypes.metal s) as [[]|]; cbn; intuition congruence.
Qed.

Lemma Qle_bool_Qred (a b : Q) : Qle_bool a (Qred b) = Qle_bool a b.
Proof.
  apply eq_true_iff_eq. rewrite !Qle_bool_iff, (Qred_correct b). reflexivity.
Qed.

Lemma inject_Z_nonzero (z : Z) : z <> 0 -> ~ (inject_Z z == 0)%Q.
Proof. unfold Qeq. cbn. lia. Qed.

Lemma fits_meets (s : MachineTypes.spec) min_cpu min_ram metal_required :
  (min_cpu <= MachineTypes.cpu s -> MachineTypes.cpu s <> 0) ->
  MachineTypes.fits s (Some min_cpu) (Some min_ram) metal_required
  = Ok (meets_query min_cpu min_ram (truthy metal_required) s).
Proof.
  intros Hc. unfold MachineTypes.fits, meets_query. cbn.
  destruct (min_cpu <=? MachineTypes.cpu s) eqn:E; [|reflexivity].
  apply Z.leb_le in E.
  rewrite py_truediv_ok by (apply inject_Z_nonzero; auto). cbn.
  rewrite Qle_bool_Qred.
  destruct (Qle_bool min_ram _); [|reflexivity].
  destruct (truthy metal_required); reflexivity.
Qed.

Lemma filter_loop_meets (ms : MachineTypes.machines) min_cpu min_ram
  metal_required :
  Forall (fun m => min_cpu <= MachineTypes.cpu m.2 -> MachineTypes.cpu m.2 <> 0)
    ms ->
  MachineTypes.filter_loop ms (Some min_cpu) (Some min_ram) metal_required
  = (map fst (List.filter
                (fun m => meets_query min_cpu min_ram
                            (truthy metal_required) m.2) ms),
     None).
Proof.
  induction 1 as [|[name s] ms Hs Hms IH]; [reflexivity|].
  cbn [MachineTypes.filter_loop List.filter]. cbn in Hs.
  rewrite fits_meets by exact Hs. cbn [snd].
  destruct (meets_query _ _ _ s); [|exact IH].
  rewrite IH. reflexivity.
Qed.

(** C6: for a catalogue whose machines have a positive number of cores,
    [filter] yields the names of the machines under the provider and
    architecture asked for that meet the query, in the order of the
    catalogue, and ends without an exception: a name is yielded exactly when
    it is the name of a machine there with at least the cores asked for, at
    least the memory per core asked for, and the bare-metal flag set if bare
    metal is required.  The result is a function of the catalogue and the
    query, so a second call yields the same names. *)
Theorem filter_yields_matching_machines
  (self : MachineTypes.t) (provider architecture : string)
  (archs : list (string * MachineTypes.machines)) (ms : MachineTypes.machines)
  (min_cores : Z) (min_ram_per_core : Q) (require_metal : bool) :
  dict_get (MachineTypes._data self) provider = Ok archs ->
  dict_get archs architecture = Ok ms ->
  Forall (fun m => 0 < MachineTypes.cpu m.2) ms ->
  MachineTypes.filter self (Some provider) (Some architecture)
    (Some min_cores) (Some min_ram_per_core) (Some require_metal)
  = (map fst (List.filter
                (fun m => meets_query min_cores min_ram_per_core
                            require_metal m.2) ms),
     None)
  /\ (forall name,
        name ∈ (MachineTypes.filter self (Some provider) (Some architecture)
                  (Some min_cores) (Some min_ram_per_core)
                  (Some require_metal)).1
        <-> exists s,
              (name, s) ∈ ms /\ min_cores <= MachineTypes.cpu s
              /\ (min_ram_per_core
                  <= MachineTypes.ram s / inject_Z (MachineTypes.cpu s))%Q
              /\ (require_metal = false \/ MachineTypes.metal s = Some true)).
Proof.
  intros Hp Ha Hpos.
  assert (MachineTypes.filter self (Some provider) (Some architecture)
            (Some min_cores) (Some min_ram_per_core) (Some require_metal)
          = (map fst (List.filter
                        (fun m => meets_query min_cores min_ram_per_core
                                    require_metal m.2) ms), None)) as Heq.
  { unfold MachineTypes.filter. cbn.
    rewrite Hp. cbn. rewrite Ha.
    rewrite filter_loop_meets.
    - destruct require_metal; reflexivity.
    - eapply Forall_impl; [exact Hpos|]. cbn. intros m Hm _. lia. }
  split; [exact Heq|]. intros name. rewrite Heq. cbn [fst]. split.
  - intros Hin. apply list_elem_of_fmap in Hin as ([n s] & -> & Hin).
    apply list_elem_of_In, filter_In in Hin as [Hin Hq].
    apply list_elem_of_In in Hin. apply meets_query_spec in Hq.
    exists s. cbn. tauto.
  - intros (s & Hin & Hq). apply list_elem_of_fmap. exists (name, s).
    split; [reflexivity|]. apply list_elem_of_In, filter_In.
    split; [apply list_elem_of_In; exact Hin|]. apply meets_query_spec.
    exact Hq.
Qed.

Lemma filter_yields_matching_machines_witness :
  MachineTypes.filter example_catalog (Some "aws") (Some "x64")
    (Some 4) (Some 2%Q) (Some false) = (["m1"], None)
  /\ MachineTypes.filter example_catalog (Some "aws") (Some "x64")
       (Some 4) (Some 2%Q) (Some true) = ([], None).
Proof.
  split.
  - apply (filter_yields_matching_machines example_catalog "aws" "x64"
             _ _ 4 2%Q false eq_refl eq_refl).
    repeat constructor.
  - apply (filter_yields_matching_machines example_catalog "aws" "x64"
             _ _ 4 2%Q true eq_refl eq_refl).
    repeat constructor.
Defined.

(** ** Task capacity *)

Lemma dict_get_NoDup {V : Type} (d : list (string * V)) (k : string) (v : V) :
  NoDup d.*1 -> (k, v) ∈ d -> dict_get d k = Ok v.
Proof.
  induction d as [|[k' v'] d IH]; intros Hnd Hin.
  - inversion Hin.
  - cbn in *. apply NoDup_cons in Hnd as [Hk' Hnd].
    apply elem_of_cons in Hin as [[= <- <-]|Hin].
    + rewrite String.eqb_refl. reflexivity.
    + destruct (String.eqb_spec k' k) as [->|_]; [|auto].
      exfalso. apply Hk'. apply list_elem_of_fmap. exists (k, v). auto.
Qed.

(** C7, as amended: for a pool with its cloud, architecture, memory per
    core and a positive [cores_per_task] set, [get_machine_list] yields, for
    each machine the filter selects with those parameters and in that order,
    the name and the floor of the machine's cores over [cores_per_task], and
    ends without an exception.  The filter is given [cores_per_task] as the
    least number of cores, so a machine with fewer cores is not listed and
    every capacity listed is at least 1. *)
Theorem get_machine_list_capacity
  (self : PoolConfiguration.t) (machine_types : MachineTypes.t)
  (provider architecture : string)
  (archs : list (string * MachineTypes.machines)) (ms : MachineTypes.machines)
  (cores : Z) (min_ram : Q) :
  cloud self = Some provider -> cpu self = Some architecture ->
  cores_per_task self = Some cores ->
  minimum_memory_per_core self = Some min_ram ->
  dict_get (MachineTypes._data machine_types) provider = Ok archs ->
  dict_get archs architecture = Ok ms ->
  NoDup ms.*1 -> 0 < cores ->
  get_machine_list self machine_types
  = (map (fun m => (m.1, MachineTypes.cpu m.2 / cores))
       (List.filter (fun m => meets_query cores min_ram (truthy (metal self)) m.2)
          ms),
     None)
  /\ (forall name capacity,
        (name, capacity) ∈ (get_machine_list self machine_types).1 ->
        1 <= capacity)
  /\ (forall name s,
        (name, s) ∈ ms -> MachineTypes.cpu s < cores ->
        name ∉ ((get_machine_list self machine_types).1).*1).
Proof.
  intros Hcl Hcpu Hcores Hram Hp Ha Hnd Hpos.
  assert (get_machine_list self machine_types
          = (map (fun m => (m.1, MachineTypes.cpu m.2 / cores))
               (List.filter
                  (fun m => meets_query cores min_ram (truthy (metal self)) m.2)
                  ms), None)) as Heq.
  { unfold get_machine_list, MachineTypes.filter, MachineTypes.cpus.
    rewrite Hcl, Hcpu, Hcores, Hram. cbn [dict_get_opt].
    unfold MachineTypes.machines in *.
    rewrite Hp. cbn [mbind res_bind]. rewrite Ha.
    rewrite filter_loop_meets
      by (apply Forall_forall; intros m _ Hm; lia).
    cbn [fst snd].
    set (kept := List.filter _ ms).
    assert (Forall (fun m => m ∈ ms) kept) as Hkept.
    { apply Forall_forall. intros m Hm. apply list_elem_of_In in Hm.
      apply filter_In in Hm as [Hm _]. apply list_elem_of_In. exact Hm. }
    clearbody kept.
    match goal with |- gen_for _ _ ?b = _ => set (body := b) end.
    assert (forall name s, (name, s) ∈ ms ->
                           body name = Ok (name, MachineTypes.cpu s / cores))
      as Hbody.
    { intros name s Hm. unfold body. cbn [mbind res_bind].
      rewrite (dict_get_NoDup ms name s Hnd Hm).
      cbn [mbind res_bind py_floordiv_opt]. unfold py_floordiv.
      destruct (Z.eqb_spec cores 0) as [->|_]; [lia|reflexivity]. }
    clearbody body.
    induction Hkept as [|[name s] kept Hm _ IH]; [reflexivity|].
    cbn [map gen_for fst snd]. rewrite (Hbody name s Hm), IH. reflexivity. }
  split; [exact Heq|]. rewrite Heq. cbn [fst]. split.
  - intros name capacity Hin.
    apply list_elem_of_fmap in Hin as ([n s] & [= -> ->] & Hin).
    apply list_elem_of_In, filter_In in Hin as [_ Hq]. cbn in Hq.
    apply meets_query_spec in Hq as [Hq _].
    apply Z.div_le_lower_bound; lia.
  - intros name s Hin Hlt Hn.
    apply list_elem_of_fmap in Hn as ([n c] & Hn & Hin'). cbn in Hn. subst n.
    apply list_elem_of_fmap in Hin' as ([n s'] & [= -> ->] & Hin').
    apply list_elem_of_In, filter_In in Hin' as [Hin' Hq].
    apply list_elem_of_In in Hin'. cbn in Hq.
    apply meets_query_spec in Hq as [Hq _].
    pose proof (dict_get_NoDup ms n s Hnd Hin) as E1.
    pose proof (dict_get_NoDup ms n s' Hnd Hin') as E2.
    rewrite E1 in E2. injection E2 as <-. lia.
Qed.

Lemma get_machine_list_capacity_witness :
  get_machine_list complete_root eight_core_catalog = ([("m8", 2)], None).
Proof.
  refine (proj1 (get_machine_list_capacity complete_root eight_core_catalog
                   "aws" "x64" _ _ 3 1%Q eq_refl eq_refl eq_refl eq_refl
                   eq_refl eq_refl _ _)).
  - repeat constructor. intros H. inversion H.
  - reflexivity.
Defined.

(** C7, counterexample: a machine with 2 cores offered to a pool that needs
    3 cores per task is not listed with capacity 0; it is not listed at
    all. *)
Lemma small_machine_not_listed :
  get_machine_list complete_root two_core_catalog = ([], None)
  /\ ("m2", 0) ∉ (get_machine_list complete_root two_core_catalog).1.
Proof. split; [reflexivity|]. cbn. apply not_elem_of_nil. Qed.

(** ** Scanning *)

(** Facts about single characters, by enumeration of the 256 of them. *)
Ltac by_cases_on_char c :=
  destruct c as [[] [] [] [] [] [] [] []]; vm_compute;
  try reflexivity; try discriminate; auto.

Lemma span_app p a b :
  all p a = true ->
  span p (a +:+ b) = (a +:+ fst (span p b), snd (span p b)).
Proof.
  induction a as [|c a IH]; cbn; intros H.
  - destruct (span p b); reflexivity.
  - apply andb_true_iff in H as [Hc Ha]. rewrite Hc, (IH Ha). reflexivity.
Qed.

Lemma span_stops p s : stops p s = true -> span p s = (EmptyString, s).
Proof.
  destruct s as [|c s]; cbn; [reflexivity|].
  intros H. apply negb_true_iff in H. rewrite H. reflexivity.
Qed.

Lemma span_app_stops p a b :
  all p a = true -> stops p b = true -> span p (a +:+ b) = (a, b).
Proof.
  intros Ha Hb. rewrite span_app, span_stops by assumption. cbn.
  f_equal. induction a as [|c a IH]; cbn; [reflexivity|].
  apply andb_true_iff in Ha as [_ Ha]. rewrite IH by exact Ha. reflexivity.
Qed.

Lemma span_split p s :
  s = fst (span p s) +:+ snd (span p s) /\ all p (fst (span p s)) = true
  /\ stops p (snd (span p s)) = true.
Proof.
  induction s as [|c s (IH1 & IH2 & IH3)]; cbn; [auto|].
  destruct (p c) eqn:E.
  - destruct (span p s) as [a b]; cbn in *. rewrite E, IH2, <- IH1. auto.
  - cbn. rewrite E. auto.
Qed.

Lemma append_assoc (a b c : string) : (a +:+ b) +:+ c = a +:+ b +:+ c.
Proof. induction a as [|x a IH]; cbn; [reflexivity|]. rewrite IH. reflexivity. Qed.

Lemma append_empty_r (a : string) : a +:+ "" = a.
Proof. induction a as [|x a IH]; cbn; [reflexivity|]. rewrite IH. reflexivity. Qed.

Lemma all_app p a b : all p (a +:+ b) = all p a && all p b.
Proof.
  induction a as [|c a IH]; cbn; [reflexivity|].
  rewrite IH, andb_assoc. reflexivity.
Qed.

Lemma digit_not_space c : is_digit c = true -> is_space c = false.
Proof. by_cases_on_char c. Qed.


(** ** parse_size *)

Lemma match_number_text ip fp point rest :
  number_ok ip fp point = true ->
  stops is_digit rest = true ->
  (point = false -> stops (fun c => Ascii.eqb c ".") rest = true) ->
  match_number (number_text ip fp point +:+ rest)
  = Some (number_text ip fp point, rest).
Proof.
  unfold number_ok, number_text, match_number. intros H Hd Hp.
  apply andb_true_iff in H as [H Hne]. apply andb_true_iff in H as [Hip Hfp].
  destruct point.
  - rewrite append_assoc. cbn [String.append].
    rewrite (span_app_stops is_digit ip (String "." (fp +:+ rest)) Hip eq_refl).
    rewrite (span_app_stops is_digit fp rest Hfp Hd).
    apply negb_true_iff in Hne. rewrite Hne. reflexivity.
  - apply andb_true_iff in Hne as [Hne _]. apply negb_true_iff in Hne.
    rewrite (span_app_stops is_digit ip rest Hip Hd). rewrite Hne.
    specialize (Hp eq_refl). destruct rest as [|c rest]; [reflexivity|].
    cbn in Hp. apply negb_true_iff in Hp.
    destruct (Ascii.eqb_spec c "."); [discriminate|].
    destruct c as [[] [] [] [] [] [] [] []]; try reflexivity; congruence.
Qed.

Lemma match_number_some s g1 s2 :
  match_number s = Some (g1, s2) ->
  exists ip fp point,
    g1 = number_text ip fp point /\ number_ok ip fp point = true
    /\ s = g1 +:+ s2.
Proof.
  unfold match_number.
  destruct (span_split is_digit s) as (Hs & Hip & _).
  destruct (span is_digit s) as [ip r]; cbn in Hs, Hip.
  assert (Hplain : (if is_empty ip then None else Some (ip, r)) = Some (g1, s2) ->
                   exists ip fp point,
                     g1 = number_text ip fp point
                     /\ number_ok ip fp point = true /\ s = g1 +:+ s2).
  { destruct (is_empty ip) eqn:E; [discriminate|]. intros [= <- <-].
    exists ip, "", false. unfold number_ok. rewrite Hip, E. auto. }
  destruct r as [|c r']; [exact Hplain|].
  destruct (Ascii.eqb_spec c ".") as [->|Hc].
  - destruct (span_split is_digit r') as (Hr & Hfp & _).
    destruct (span is_digit r') as [fp r'']; cbn in Hr, Hfp.
    destruct (is_empty ip && is_empty fp) eqn:E; [discriminate|].
    intros [= <- <-]. exists ip, fp, true.
    unfold number_ok, number_text. rewrite Hip, Hfp, E.
    repeat split. rewrite Hs, Hr, append_assoc. reflexivity.
  - destruct c as [[] [] [] [] [] [] [] []]; try exact Hplain; congruence.
Qed.

Lemma si_prefix_char c :
  in_class_i "kmgt" c = true ->
  is_space c = false /\ is_digit c = false /\ Ascii.eqb c "." = false
  /\ dict_get size_multipliers (lower (String c ""))
     = Ok (binary_multiple (String c "")).
Proof. by_cases_on_char c. Qed.

Lemma space_char c :
  is_space c = true -> is_digit c = false /\ Ascii.eqb c "." = false.
Proof. by_cases_on_char c. Qed.

Lemma number_text_stops_space ip fp point rest :
  number_ok ip fp point = true ->
  stops is_space (number_text ip fp point +:+ rest) = true.
Proof.
  unfold number_ok, number_text. intros H.
  apply andb_true_iff in H as [H Hne]. apply andb_true_iff in H as [Hip _].
  destruct ip as [|c ip]; cbn.
  - destruct point; [reflexivity|discriminate].
  - cbn in Hip. apply andb_true_iff in Hip as [Hc _].
    destruct point; cbn; rewrite (digit_not_space c Hc); reflexivity.
Qed.

Lemma py_float_number ip fp point :
  number_ok ip fp point = true ->
  py_float (number_text ip fp point)
  = Ok (if point then Qred (decimal ip fp) else inject_Z (int_acc 0 ip)).
Proof.
  unfold number_ok, number_text, py_float. intros H.
  apply andb_true_iff in H as [H Hne]. apply andb_true_iff in H as [Hip Hfp].
  destruct point.
  - rewrite (span_app_stops is_digit ip (String "." fp) Hip eq_refl).
    rewrite Hfp, Hne. reflexivity.
  - apply andb_true_iff in Hne as [Hne _]. apply negb_true_iff in Hne.
    rewrite <- (append_empty_r ip) at 1.
    rewrite (span_app_stops is_digit ip "" Hip eq_refl). rewrite Hne.
    reflexivity.
Qed.

Lemma match_size_text ws ip fp point ws2 u rest :
  all is_space ws = true -> number_ok ip fp point = true ->
  all is_space ws2 = true -> after_number u rest = true ->
  exists tail,
    match_size (ws +:+ number_text ip fp point +:+ ws2 +:+ prefix_text u +:+ rest)
    = Some (number_text ip fp point, prefix_text u, tail).
Proof.
  intros Hws Hn Hws2 Hu. unfold match_size, skip.
  rewrite (span_app_stops is_space ws _ Hws (number_text_stops_space _ _ _ _ Hn)).
  cbn [snd].
  assert (stops is_space (prefix_text u +:+ rest) = true
          /\ stops is_digit (prefix_text u +:+ rest) = true
          /\ stops (fun c => Ascii.eqb c ".") (prefix_text u +:+ rest) = true
          /\ opt (in_class_i "kmgt") (prefix_text u +:+ rest)
             = (prefix_text u, rest)) as (S1 & S2 & S3 & S4).
  { destruct u as [c|];
      cbn [after_number stops prefix_text String.append opt] in *.
    - destruct (si_prefix_char c Hu) as (-> & -> & -> & _). rewrite Hu. auto.
    - destruct rest as [|c rest]; cbn [stops opt] in *; [auto|].
      apply negb_true_iff in Hu.
      apply orb_false_iff in Hu as [Hu H4].
      apply orb_false_iff in Hu as [Hu H3].
      apply orb_false_iff in Hu as [H1 H2].
      rewrite H1, H2, H3, H4. auto. }
  rewrite match_number_text; try assumption.
  - rewrite (span_app_stops is_space ws2 _ Hws2 S1). cbn [snd].
    rewrite S4. destruct (opt (in_class_i "b") rest). eauto.
  - destruct ws2 as [|c ws2]; [exact S2|]. cbn in *.
    apply andb_true_iff in Hws2 as [Hc _].
    destruct (space_char c Hc) as [-> _]. reflexivity.
  - intros _. destruct ws2 as [|c ws2]; [exact S3|]. cbn in *.
    apply andb_true_iff in Hws2 as [Hc _].
    destruct (space_char c Hc) as [_ ->]. reflexivity.
Qed.

Lemma match_size_some s g1 g2 tail :
  match_size s = Some (g1, g2, tail) ->
  starts_with_number s
  /\ (exists v, py_float g1 = Ok v)
  /\ (exists m, dict_get size_multipliers (lower g2) = Ok m).
Proof.
  unfold match_size, skip.
  destruct (span_split is_space s) as (Hs & Hws & _).
  destruct (span is_space s) as [ws s1]; cbn [fst snd] in *.
  destruct (match_number s1) as [[n s2]|] eqn:E; [|discriminate].
  apply match_number_some in E as (ip & fp & point & -> & Hn & ->).
  destruct (opt (in_class_i "kmgt") (span is_space s2).2) as [u s4] eqn:Eu.
  destruct (opt (in_class_i "b") s4) as [b s5].
  intros [= <- <- _]. split; [|split].
  - exists ws, ip, fp, point, s2. auto.
  - rewrite (py_float_number _ _ _ Hn). eauto.
  - unfold opt in Eu. destruct ((span is_space s2).2) as [|c r].
    + injection Eu as <- _. cbn. eauto.
    + destruct (in_class_i "kmgt" c) eqn:Ec; injection Eu as <- _.
      * destruct (si_prefix_char c Ec) as (_ & _ & _ & ->). eauto.
      * cbn. eauto.
Qed.

Lemma is_empty_app_l a b : is_empty a = false -> is_empty (a +:+ b) = false.
Proof. destruct a; [discriminate|reflexivity]. Qed.

Lemma match_number_starts ip fp point rest :
  number_ok ip fp point = true ->
  is_Some (match_number (number_text ip fp point +:+ rest)).
Proof.
  unfold number_ok, number_text, match_number. intros H.
  apply andb_true_iff in H as [H Hne]. apply andb_true_iff in H as [Hip Hfp].
  destruct point.
  - rewrite append_assoc. cbn [String.append].
    rewrite (span_app_stops is_digit ip (String "." (fp +:+ rest)) Hip eq_refl).
    rewrite (span_app is_digit fp rest Hfp).
    destruct (is_empty ip && is_empty (fp +:+ (span is_digit rest).1)) eqn:E;
      [|eauto].
    apply andb_true_iff in E as [E1 E2]. apply negb_true_iff in Hne.
    rewrite E1 in Hne. cbn in Hne.
    rewrite (is_empty_app_l _ _ Hne) in E2. discriminate.
  - apply andb_true_iff in Hne as [Hne _]. apply negb_true_iff in Hne.
    rewrite (span_app is_digit ip rest Hip). cbv beta iota.
    pose proof (is_empty_app_l ip (span is_digit rest).1 Hne) as E.
    destruct ((span is_digit rest).2) as [|c r]; [cbv iota; rewrite E; eauto|].
    destruct c as [[] [] [] [] [] [] [] []]; cbv iota; try (rewrite E; eauto).
    destruct (span is_digit r). cbn. eauto.
Qed.

Lemma match_size_starts s :
  starts_with_number s <-> is_Some (match_size s).
Proof.
  split.
  - intros (ws & ip & fp & point & rest & -> & Hws & Hn).
    unfold match_size, skip.
    rewrite (span_app_stops is_space ws _ Hws
               (number_text_stops_space _ _ _ _ Hn)). cbn [snd].
    destruct (match_number_starts ip fp point rest Hn) as [[g1 s2] ->].
    destruct (opt (in_class_i "kmgt") _), (opt (in_class_i "b") _). eauto.
  - intros [[[g1 g2] tail] H]. apply match_size_some in H as [H _]. exact H.
Qed.

(** C4, as amended: [parse_size] fails with its [AssertionError] exactly
    when the text does not start, after white space, with a numeric
    literal.  When a literal, white space and an optional SI prefix k, m, g
    or t are followed by anything at all (after the prefix), or by a text
    that cannot continue them (where there is no prefix), the result is the
    number times 1024 to the power 0 to 4 over the divisor: what follows is
    not examined.  So 4qx gives 4, 4g gives 4 * 1024^3 and 1g with the
    divisor [parse_size] of 1g gives 1. *)
Theorem parse_size_prefix_match :
  (forall s divisor,
     parse_size s divisor = Raise (AssertionError size_message)
     <-> ~ starts_with_number s)
  /\ (forall ws ip fp point ws2 u rest divisor,
        all is_space ws = true -> number_ok ip fp point = true ->
        all is_space ws2 = true -> after_number u rest = true ->
        ~ (divisor == 0)%Q ->
        parse_size
          (ws +:+ number_text ip fp point +:+ ws2 +:+ prefix_text u +:+ rest)
          divisor
        = Ok (Qred (number_value ip fp point
                    * inject_Z (binary_multiple (prefix_text u)) / divisor)))
  /\ parse_size "4qx" 1 = Ok 4%Q
  /\ parse_size "4g" 1 = Ok (inject_Z (4 * 1024 ^ 3))
  /\ (one_g ← parse_size "1g" 1; parse_size "1g" one_g) = Ok 1%Q.
Proof.
  split; [|split; [|repeat split; vm_compute; reflexivity]].
  - intros s divisor. rewrite match_size_starts. unfold parse_size.
    destruct (match_size s) as [[[g1 g2] tail]|] eqn:E.
    + apply match_size_some in E as (_ & [v ->] & [m ->]).
      cbn [mbind res_bind]. unfold py_truediv.
      split; [destruct (Qeq_bool divisor 0); discriminate|].
      intros H. exfalso. apply H. eauto.
    + split; [intros _ [x Hx]; discriminate | reflexivity].
  - intros ws ip fp point ws2 u rest divisor Hws Hn Hws2 Hu Hd.
    unfold parse_size.
    destruct (match_size_text ws ip fp point ws2 u rest Hws Hn Hws2 Hu)
      as [tail ->].
    rewrite (py_float_number _ _ _ Hn). cbn [mbind res_bind].
    assert (dict_get size_multipliers (lower (prefix_text u))
            = Ok (binary_multiple (prefix_text u))) as ->.
    { destruct u as [c|]; [|reflexivity].
      exact (proj2 (proj2 (proj2 (si_prefix_char c Hu)))). }
    cbn [mbind res_bind]. rewrite py_truediv_ok by exact Hd.
    f_equal. apply Qred_complete. unfold number_value.
    destruct point; [rewrite Qred_correct|]; reflexivity.
Qed.

Lemma parse_size_prefix_match_witness :
  parse_size " 4.5 KB xyz" 1 = Ok 4608%Q.
Proof.
  exact (proj1 (proj2 parse_size_prefix_match) " " "4" "5" true " "
           (Some "K"%char) "B xyz" 1%Q eq_refl eq_refl eq_refl eq_refl
           Q_apart_0_1).
Defined.

Lemma all_impl (p q : ascii -> bool) s :
  (forall c, p c = true -> q c = true) -> all p s = true -> all q s = true.
Proof.
  intros Hpq. induction s as [|c s IH]; cbn; [reflexivity|].
  intros H. apply andb_true_iff in H as [Hc Hs].
  rewrite (Hpq c Hc), (IH Hs). reflexivity.
Qed.

Lemma size_string_chars s : size_string s -> all size_char s = true.
Proof.
  intros (ws & ip & fp & point & ws2 & u & b & ws3 & -> & Hws & Hn & Hws2
          & Hu & Hb & Hws3).
  assert (forall c, is_space c = true -> size_char c = true) as Hsp
      by (intros c; by_cases_on_char c).
  assert (forall c, is_digit c = true -> size_char c = true) as Hdg
      by (intros c; by_cases_on_char c).
  unfold number_ok in Hn.
  apply andb_true_iff in Hn as [Hn _]. apply andb_true_iff in Hn as [Hip Hfp].
  rewrite !all_app.
  rewrite (all_impl _ _ ws Hsp Hws), (all_impl _ _ ws2 Hsp Hws2),
    (all_impl _ _ ws3 Hsp Hws3). cbn [andb].
  assert (all size_char (number_text ip fp point) = true) as ->.
  { unfold number_text. destruct point; [|exact (all_impl _ _ ip Hdg Hip)].
    rewrite all_app. cbn [all].
    rewrite (all_impl _ _ ip Hdg Hip), (all_impl _ _ fp Hdg Hfp). reflexivity. }
  assert (all size_char (prefix_text u) = true) as ->.
  { destruct u as [c|]; [|reflexivity]. cbn in *. rewrite andb_true_r.
    revert Hu. by_cases_on_char c. }
  destruct Hb as [->| [->| ->]]; reflexivity.
Qed.

(** C4, counterexample: the text 4qx is not a number with an optional
    prefix and b, and [parse_size] returns 4 on it. *)
Lemma parse_size_ignores_trailing_text :
  ~ (forall s divisor,
       ~ size_string s ->
       exists msg, parse_size s divisor = Raise (AssertionError msg)).
Proof.
  intros H. destruct (H "4qx" 1%Q) as [msg Hm].
  - intros Hs. apply size_string_chars in Hs. discriminate.
  - discriminate.
Qed.

(** ** parse_time *)

(** One turn of the [while] loop on a text that is not empty. *)
Lemma parse_time_loop_step time result got :
  is_empty time = false ->
  parse_time_loop time result got
  = match parse_time_body time result got with
    | Raise e => Raise e
    | Ok Break => Ok result
    | Ok (Continue result' time') => parse_time_loop time' result' true
    end.
Proof.
  destruct time as [|c time]; [discriminate|]. intros _.
  rewrite parse_time_loop_equation_2. unfold inspect.
  match goal with
  | |- ?f (exist ?P ?x eq_refl) = _ =>
      enough (forall b (e : x = b),
                f (exist P b e)
                = match b with
                  | Raise e => Raise e
                  | Ok Break => Ok result
                  | Ok (Continue result' time') =>
                      parse_time_loop time' result' true
                  end) as H by apply H
  end.
  intros [[|r t]|e] E; reflexivity.
Qed.

Lemma unit_char c :
  in_class_i "wdhms" c = true ->
  is_space c = false /\ is_digit c = false /\ is_dot c = true
  /\ dict_get time_multipliers (lower (String c "")) = Ok (unit_seconds c).
Proof. by_cases_on_char c. Qed.


Lemma py_int_digits ds :
  is_empty ds = false -> all is_digit ds = true ->
  py_int ds = Ok (int_acc 0 ds).
Proof. unfold py_int. intros -> ->. reflexivity. Qed.



















(** ** More on parse_time *)

Lemma digit_val_bounds c : is_digit c = true -> 0 <= digit_val c <= 9.
Proof.
  destruct c as [[] [] [] [] [] [] [] []]; intros H; try discriminate H;
    vm_compute; split; discriminate.
Qed.

Lemma int_acc_nonneg s acc :
  all is_digit s = true -> 0 <= acc -> 0 <= int_acc acc s.
Proof.
  revert acc. induction s as [|c s IH]; cbn; intros acc H Hacc; [exact Hacc|].
  apply andb_true_iff in H as [Hc Hs]. apply IH; [exact Hs|].
  pose proof (digit_val_bounds c Hc). lia.
Qed.

Lemma length_append (a b : string) :
  String.length (a +:+ b) = (String.length a + String.length b)%nat.
Proof. induction a as [|c a IH]; cbn; [reflexivity|]. rewrite IH. reflexivity. Qed.

(** What a match of the time pattern holds: digits, at most a unit letter,
    and a rest that is shorter than the text. *)
Lemma match_time_groups time g1 g2 g3 :
  match_time time = Some (g1, g2, g3) ->
  is_empty g1 = false /\ all is_digit g1 = true
  /\ (g2 = "" \/ exists c, g2 = String c "" /\ in_class_i "wdhms" c = true)
  /\ (String.length g3 < String.length time)%nat.
Proof.
  unfold match_time, skip.
  destruct (span_split is_space time) as (E1 & _ & _).
  destruct (span is_space time) as [w1 s1]; cbn [fst snd] in *.
  destruct (span_split is_digit s1) as (E2 & Hd & _).
  destruct (span is_digit s1) as [d s2]; cbn [fst snd] in *.
  destruct (is_empty d) eqn:Ed; [discriminate|].
  destruct (span_split is_space s2) as (E3 & _ & _).
  destruct (span is_space s2) as [w2 s3]; cbn [fst snd] in *.
  assert (exists u s4, opt (in_class_i "wdhms") s3 = (u, s4)
                       /\ s3 = u +:+ s4
                       /\ (u = "" \/ exists c, u = String c ""
                                               /\ in_class_i "wdhms" c = true))
    as (u & s4 & -> & E4 & Hu).
  { destruct s3 as [|c s3]; cbn [opt].
    - exists "", "". auto.
    - destruct (in_class_i "wdhms" c) eqn:Ec.
      + exists (String c ""), s3. repeat split; eauto.
      + exists "", (String c s3). auto. }
  destruct (span_split is_space s4) as (E5 & _ & _).
  destruct (span is_space s4) as [w3 s5]; cbn [fst snd] in *.
  destruct (span_split is_dot s5) as (E6 & _ & _).
  destruct (span is_dot s5) as [g r]; cbn [fst snd] in *.
  intros [= <- <- <-]. repeat split; try assumption.
  apply (f_equal String.length) in E1, E2, E3, E4, E5, E6.
  rewrite !length_append in *.
  destruct d; [discriminate|]. cbn [String.length] in *. lia.
Qed.

Lemma dict_get_elem {V : Type} (d : list (string * V)) k v :
  dict_get d k = Ok v -> (k, v) ∈ d.
Proof.
  induction d as [|[k' v'] d IH]; cbn; [discriminate|].
  destruct (String.eqb_spec k' k) as [->|_].
  - intros [= <-]. apply list_elem_of_here.
  - intros H. apply list_elem_of_further, IH, H.
Qed.

Lemma time_multiplier_positive k m :
  dict_get time_multipliers k = Ok m -> 0 < m.
Proof.
  intros H. apply dict_get_elem, list_elem_of_In in H.
  unfold time_multipliers in H. cbn [In] in H.
  repeat (destruct H as [H|H]; [injection H as _ <-; lia|]).
  contradiction.
Qed.

(** The ways a pass through the body of the loop ends. *)
Lemma parse_time_body_cases time result got :
  (parse_time_body time result got = Ok Break /\ got = true)
  \/ (exists n m t,
        parse_time_body time result got = Ok (Continue (result + n * m) t)
        /\ 0 <= n /\ 0 < m
        /\ (String.length t < String.length time)%nat)
  \/ (parse_time_body time result got = Raise (AssertionError time_message)
      /\ got = false /\ match_time time = None)
  \/ parse_time_body time result got = Raise (AssertionError "trailing data")
  \/ (parse_time_body time result got
      = Raise (AssertionError multipart_message) /\ got = true).
Proof.
  unfold parse_time_body.
  destruct (match_time time) as [[[g1 g2] g3]|] eqn:E.
  - apply match_time_groups in E as (Hne & Hd & Hu & Hlen).
    rewrite orb_true_r. cbn [py_assert mbind res_bind].
    rewrite (py_int_digits g1 Hne Hd).
    pose proof (int_acc_nonneg g1 0 Hd (Z.le_refl 0)) as Hn.
    destruct Hu as [->|(c & -> & Hc)].
    + cbn [is_empty negb]. destruct (is_empty g3) eqn:E3; cbn [py_assert mbind res_bind];
        [|auto].
      destruct got; cbn [negb py_assert mbind res_bind]; [auto 6|].
      right. left. exists (int_acc 0 g1), 1, g3. repeat split; auto; lia.
    + cbn [is_empty negb].
      destruct (unit_char c Hc) as (_ & _ & _ & Hm). rewrite Hm.
      cbn [mbind res_bind]. right. left.
      exists (int_acc 0 g1), (unit_seconds c), g3. repeat split; auto.
      exact (time_multiplier_positive _ _ Hm).
  - destruct got; cbn; auto 8.
Qed.

Lemma parse_time_body_shorter time result got result' time' :
  parse_time_body time result got = Ok (Continue result' time') ->
  (String.length time' < String.length time)%nat.
Proof.
  intros H.
  destruct (parse_time_body_cases time result got)
    as [[E _]|[(n & m & t & E & _ & _ & Hlen)|[(E & _)|[E|[E _]]]]];
    rewrite E in H; try discriminate.
  injection H as _ <-. exact Hlen.
Qed.

(** Induction along the turns of the loop of [parse_time]. *)
Lemma parse_time_loop_induction (P : string -> Z -> bool -> res Z -> Prop) :
  (forall result got, P "" result got (Ok result)) ->
  (forall time result got e,
     is_empty time = false -> parse_time_body time result got = Raise e ->
     P time result got (Raise e)) ->
  (forall time result got,
     is_empty time = false -> parse_time_body time result got = Ok Break ->
     P time result got (Ok result)) ->
  (forall time result got result' time',
     is_empty time = false ->
     parse_time_body time result got = Ok (Continue result' time') ->
     P time' result' true (parse_time_loop time' result' true) ->
     P time result got (parse_time_loop time' result' true)) ->
  forall time result got, P time result got (parse_time_loop time result got).
Proof.
  intros Hnil Hraise Hbreak Hcont time.
  remember (String.length time) as n eqn:Hn. revert time Hn.
  induction n as [n IH] using lt_wf_ind. intros time -> result got.
  destruct (is_empty time) eqn:Et.
  - destruct time; [|discriminate].
    rewrite parse_time_loop_equation_1. apply Hnil.
  - rewrite parse_time_loop_step by exact Et.
    destruct (parse_time_body time result got) as [[|r' t']|e] eqn:E.
    + apply Hbreak; assumption.
    + apply (Hcont _ _ _ _ _ Et E).
      apply (IH _ (parse_time_body_shorter _ _ _ _ _ E) t' eq_refl).
    + apply Hraise; assumption.
Qed.





Lemma match_time_none time :
  match_time time = None <-> stops is_digit (skip is_space time) = true.
Proof.
  unfold match_time. destruct (skip is_space time) as [|c t]; cbn.
  - split; reflexivity.
  - destruct (is_digit c) eqn:Ec; cbn.
    + destruct (span is_digit t). cbn. destruct (opt _ _). split; discriminate.
    + split; reflexivity.
Qed.

Lemma parse_time_raise time divisor e :
  parse_time time divisor = Raise e ->
  parse_time_loop time 0 false = Raise e
  \/ (e = ZeroDivisionError /\ (divisor == 0)%Q).
Proof.
  unfold parse_time. destruct (parse_time_loop time 0 false) as [v|e'];
    cbn [mbind res_bind].
  - unfold py_truediv. destruct (Qeq_bool divisor 0) eqn:E; [|discriminate].
    intros [= <-]. right. split; [reflexivity|]. apply Qeq_bool_iff, E.
  - intros [= <-]. auto.
Qed.

(** X3: [parse_time] raises its first assertion exactly on a text that is
    not empty and does not start, after white space, with a digit.  A text
    of white space alone is refused, although the empty text gives 0. *)
Theorem parse_time_rejects_non_number (time : string) (divisor : Q) :
  parse_time time divisor = Raise (AssertionError time_message)
  <-> is_empty time = false /\ stops is_digit (skip is_space time) = true.
Proof.
  rewrite <- match_time_none. split.
  - intros H. apply parse_time_raise in H as [H|[[=] _]].
    enough (parse_time_loop time 0 false = Raise (AssertionError time_message)
            -> false = false /\ is_empty time = false /\ match_time time = None)
      as Hen by (apply Hen in H; tauto).
    apply (parse_time_loop_induction
             (fun time _ got r =>
                r = Raise (AssertionError time_message) ->
                got = false /\ is_empty time = false /\ match_time time = None)).
    + discriminate.
    + intros t r g e Ht Hb [= ->].
      destruct (parse_time_body_cases t r g)
        as [[E _]|[(n & m & t' & E & _)|[(E & Hg & Hm)|[E|[E _]]]]];
        rewrite E in Hb; try discriminate; auto.
    + discriminate.
    + intros t r g r' t' _ _ IH Hr. destruct (IH Hr) as [[=] _].
  - intros [Ht Hm]. unfold parse_time.
    rewrite parse_time_loop_step by exact Ht.
    unfold parse_time_body. rewrite Hm. reflexivity.
Qed.

Lemma parse_time_rejects_non_number_witness :
  parse_time "  " 1 = Raise (AssertionError time_message)
  /\ parse_time "h1" 1 = Raise (AssertionError time_message).
Proof.
  split; apply parse_time_rejects_non_number; split; reflexivity.
Defined.

Lemma parse_time_loop_raises time e :
  parse_time_loop time 0 false = Raise e -> e ∈ time_errors.
Proof.
  revert e.
  apply (parse_time_loop_induction
           (fun _ _ _ r => forall e, r = Raise e -> e ∈ time_errors)).
  - discriminate.
  - intros t r g e _ Hb e' [= <-]. unfold time_errors.
    destruct (parse_time_body_cases t r g)
      as [[E _]|[(n & m & t' & E & _)|[(E & _)|[E|[E _]]]]];
      rewrite E in Hb; try discriminate; injection Hb as <-; set_solver.
  - discriminate.
  - auto.
Qed.



Lemma Qred_div_nonneg (v : Z) (d : Q) :
  0 <= v -> (0 < d)%Q -> (0 <= Qred (inject_Z v / d))%Q.
Proof.
  intros Hv Hd. rewrite Qred_correct. apply Qle_shift_div_l; [exact Hd|].
  rewrite Qmult_0_l. unfold Qle. cbn. lia.
Qed.

Lemma parse_time_loop_nonneg time v :
  parse_time_loop time 0 false = Ok v -> 0 <= v.
Proof.
  generalize (Z.le_refl 0). generalize 0 at 2 3 as r. intros r Hr. revert v.
  apply (parse_time_loop_induction
           (fun _ r _ res => 0 <= r -> forall v, res = Ok v -> 0 <= v));
    [| | | |exact Hr].
  - intros r0 _ H0 v [= <-]. exact H0.
  - discriminate.
  - intros _ r0 _ _ _ H0 v [= <-]. exact H0.
  - intros t r0 g r' t' _ Hb IH H0. apply IH.
    destruct (parse_time_body_cases t r0 g)
      as [[E _]|[(n & m & t'' & E & Hn & Hm & _)|[(E & _)|[E|[E _]]]]];
      rewrite E in Hb; try discriminate.
    injection Hb as <- _. nia.
Qed.

(** X5: with a positive divisor [parse_time] never returns a negative
    number. *)
Theorem parse_time_nonneg (time : string) (divisor q : Q) :
  (0 < divisor)%Q -> parse_time time divisor = Ok q -> (0 <= q)%Q.
Proof.
  intros Hd. unfold parse_time. intros H.
  apply bind_Ok in H as (v & Hv & H).
  rewrite py_truediv_ok in H by (intros H0; rewrite H0 in Hd; discriminate).
  injection H as <-. apply Qred_div_nonneg; [|exact Hd].
  exact (parse_time_loop_nonneg _ _ Hv).
Qed.

Lemma parse_time_nonneg_witness : (0 <= 5400)%Q.
Proof.
  apply (parse_time_nonneg "1h30m" 1%Q 5400%Q); reflexivity.
Defined.

(** ** More on parse_size *)

Lemma size_multiplier_positive k m :
  dict_get size_multipliers k = Ok m -> 0 < m.
Proof.
  intros H. apply dict_get_elem, list_elem_of_In in H.
  unfold size_multipliers in H. cbn [In] in H.
  repeat (destruct H as [H|H]; [injection H as _ <-; lia|]).
  contradiction.
Qed.

Lemma py_float_nonneg s v : py_float s = Ok v -> (0 <= v)%Q.
Proof.
  unfold py_float.
  destruct (span_split is_digit s) as (_ & Hip & _).
  destruct (span is_digit s) as [ip r]; cbn [fst snd] in *.
  destruct r as [|c fp].
  - destruct (is_empty ip); [discriminate|]. intros [= <-].
    pose proof (int_acc_nonneg ip 0 Hip (Z.le_refl 0)).
    unfold Qle. cbn. lia.
  - destruct (Ascii.eqb c "." && all is_digit fp
              && negb (is_empty ip && is_empty fp)) eqn:E; [|discriminate].
    apply andb_true_iff in E as [E _]. apply andb_true_iff in E as [_ Hfp].
    intros [= <-]. rewrite Qred_correct. unfold decimal, Qle. cbn.
    assert (all is_digit (ip +:+ fp) = true) as Hall
        by (rewrite all_app, Hip, Hfp; reflexivity).
    pose proof (int_acc_nonneg _ 0 Hall (Z.le_refl 0)). lia.
Qed.

(** The outcome of [parse_size] on a text the pattern matches. *)
Lemma parse_size_matched s g1 g2 tail divisor :
  match_size s = Some (g1, g2, tail) ->
  exists v m,
    (0 <= v)%Q /\ 0 < m
    /\ parse_size s divisor = py_truediv (v * inject_Z m) divisor.
Proof.
  intros Hm. unfold parse_size. rewrite Hm.
  apply match_size_some in Hm as (_ & [v Hv] & [m Hmul]).
  rewrite Hv, Hmul. cbn [mbind res_bind]. exists v, m.
  split; [exact (py_float_nonneg _ _ Hv)|].
  split; [exact (size_multiplier_positive _ _ Hmul)|reflexivity].
Qed.

Lemma Qdiv_1 (x : Q) : (x / 1 == x)%Q.
Proof. unfold Qdiv. change (/ 1)%Q with 1%Q. apply Qmult_1_r. Qed.

(** X6: the divisor of [parse_size] only scales the result: the size in
    units of [divisor] is the size in bytes over [divisor]. *)
Theorem parse_size_divisor_scales (s : string) (bytes divisor : Q) :
  parse_size s 1 = Ok bytes -> ~ (divisor == 0)%Q ->
  parse_size s divisor = Ok (Qred (bytes / divisor)).
Proof.
  intros H1 Hd. unfold parse_size in H1 |- *.
  destruct (match_size s) as [[[g1 g2] tail]|] eqn:Hm; [|discriminate].
  destruct (parse_size_matched s g1 g2 tail 1 Hm) as (v & m & _ & _ & E1).
  destruct (parse_size_matched s g1 g2 tail divisor Hm) as (v' & m' & _ & _ & Ed).
  unfold parse_size in E1, Ed. rewrite Hm in E1, Ed.
  destruct (py_float g1) as [x|]; [|discriminate].
  destruct (dict_get size_multipliers (lower g2)) as [k|]; [|discriminate].
  cbn [mbind res_bind] in *.
  rewrite py_truediv_ok in H1 by exact Q_apart_0_1. injection H1 as <-.
  rewrite py_truediv_ok by exact Hd. f_equal. apply Qred_complete.
  rewrite Qred_correct, Qdiv_1. reflexivity.
Qed.

Lemma parse_size_divisor_scales_witness :
  parse_size "512m" (1024 * 1024 * 1024) = Ok (1 # 2).
Proof.
  exact (parse_size_divisor_scales "512m" (512 * 1024 * 1024)
           (1024 * 1024 * 1024) eq_refl ltac:(discriminate)).
Defined.

(** X7: [parse_size] ends in one of three ways: the assertion on a text
    that does not start with a number, a [ZeroDivisionError] on a zero
    divisor, or a number that is not negative when the divisor is positive.
    The conversion of the literal and the look-up of the prefix never
    fail. *)
Theorem parse_size_outcomes (s : string) (divisor : Q) :
  (parse_size s divisor = Raise (AssertionError size_message)
   /\ ~ starts_with_number s)
  \/ (parse_size s divisor = Raise ZeroDivisionError
      /\ starts_with_number s /\ (divisor == 0)%Q)
  \/ (exists q, parse_size s divisor = Ok q /\ starts_with_number s
                /\ ((0 < divisor)%Q -> (0 <= q)%Q)).
Proof.
  destruct (match_size s) as [[[g1 g2] tail]|] eqn:Hm.
  - right.
    assert (starts_with_number s) as Hs
        by (apply match_size_starts; rewrite Hm; eauto).
    destruct (parse_size_matched s g1 g2 tail divisor Hm)
      as (v & m & Hv & Hpos & ->).
    unfold py_truediv. destruct (Qeq_bool divisor 0) eqn:E.
    + left. apply Qeq_bool_iff in E. auto.
    + right. eexists. split; [reflexivity|]. split; [exact Hs|].
      intros Hd. rewrite Qred_correct. apply Qle_shift_div_l; [exact Hd|].
      rewrite Qmult_0_l. apply Qmult_le_0_compat; [exact Hv|].
      unfold Qle. cbn. lia.
  - left. split.
    + unfold parse_size. rewrite Hm. reflexivity.
    + intros Hs. apply match_size_starts in Hs. rewrite Hm in Hs.
      destruct Hs as [x Hx]. discriminate.
Qed.

(** ** alias_cpu *)

Lemma lower_ascii_idem c : lower_ascii (lower_ascii c) = lower_ascii c.
Proof. by_cases_on_char c. Qed.

Lemma lower_idem s : lower (lower s) = lower s.
Proof.
  induction s as [|c s IH]; cbn; [reflexivity|].
  rewrite lower_ascii_idem, IH. reflexivity.
Qed.

Lemma dict_get_raise {V : Type} (d : list (string * V)) k e :
  dict_get d k = Raise e <-> e = KeyError k /\ k ∉ d.*1.
Proof.
  induction d as [|[k' v'] d IH]; cbn.
  - split; [intros [= <-]; split; [reflexivity|apply not_elem_of_nil]
           |intros [-> _]; reflexivity].
  - destruct (String.eqb_spec k' k) as [->|Hne].
    + split; [discriminate|]. intros [_ Hn]. exfalso. apply Hn.
      apply list_elem_of_here.
    + rewrite IH. rewrite not_elem_of_cons. intuition congruence.
Qed.

Lemma alias_cpu_arch (cpu_name arch : string) :
  alias_cpu cpu_name = Ok arch ->
  arch ∈ ARCHITECTURES /\ alias_cpu arch = Ok arch.
Proof.
  unfold alias_cpu. intros H.
  apply dict_get_elem, list_elem_of_In in H. unfold CPU_ALIASES in H.
  cbn [In] in H.
  repeat (destruct H as [H|H];
          [injection H as _ <-; split; [unfold ARCHITECTURES; set_solver
                                       |reflexivity]|]).
  contradiction.
Qed.

(** X8: a name [alias_cpu] accepts is mapped to one of the two
    architectures, and the architectures are mapped to themselves: the
    assertion that follows the call in [__init__] cannot fail and aliasing
    twice changes nothing. *)
Theorem alias_cpu_canonical (cpu_name arch : string) :
  alias_cpu cpu_name = Ok arch ->
  arch ∈ ARCHITECTURES /\ alias_cpu arch = Ok arch.
Proof. exact (alias_cpu_arch cpu_name arch). Qed.

Lemma alias_cpu_canonical_witness :
  "x64" ∈ ARCHITECTURES /\ alias_cpu "x64" = Ok "x64".
Proof. apply (alias_cpu_canonical "AMD64" "x64"). reflexivity. Defined.

(** X9: [alias_cpu] looks at the name in lower case only, and fails, with a
    [KeyError] that carries the lowered name, exactly when that is none of
    the six aliases. *)
Theorem alias_cpu_case_and_failure (cpu_name : string) :
  alias_cpu (lower cpu_name) = alias_cpu cpu_name
  /\ (forall e,
        alias_cpu cpu_name = Raise e
        <-> e = KeyError (lower cpu_name)
            /\ lower cpu_name ∉ ["x86_64"; "amd64"; "x86-64"; "x64"; "arm64";
                                  "aarch64"]).
Proof.
  unfold alias_cpu. rewrite lower_idem. split; [reflexivity|].
  intros e. apply dict_get_raise.
Qed.

(** ** More on MachineTypes *)


Lemma bind_Raise {A B : Type} (m : res A) (k : A -> res B) (e : exn) :
  m ≫= k = Raise e -> m = Raise e \/ exists a, m = Ok a /\ k a = Raise e.
Proof.
  destruct m as [a|e']; cbn; intros H; [right; exists a; auto|].
  injection H as ->. left. reflexivity.
Qed.



Lemma filter_loop_fits ms min_cpu min_ram metal_required name :
  name ∈ (MachineTypes.filter_loop ms min_cpu min_ram metal_required).1 ->
  exists s, (name, s) ∈ ms
            /\ MachineTypes.fits s min_cpu min_ram metal_required = Ok true.
Proof.
  induction ms as [|[n s] ms IH]; cbn [MachineTypes.filter_loop].
  - intros H. inversion H.
  - destruct (MachineTypes.fits s min_cpu min_ram metal_required)
      as [[]|e] eqn:E; cbn [fst gen_yield gen_raise].
    + intros H. apply elem_of_cons in H as [->|H].
      * exists s. split; [apply list_elem_of_here|exact E].
      * destruct (IH H) as (s' & Hin & Hf). exists s'.
        split; [apply list_elem_of_further, Hin|exact Hf].
    + intros H. destruct (IH H) as (s' & Hin & Hf). exists s'.
      split; [apply list_elem_of_further, Hin|exact Hf].
    + intros H. inversion H.
Qed.

Lemma filter_loop_sublist ms min_cpu min_ram metal_required :
  (MachineTypes.filter_loop ms min_cpu min_ram metal_required).1
  `sublist_of` ms.*1.
Proof.
  induction ms as [|[n s] ms IH]; cbn [MachineTypes.filter_loop].
  - constructor.
  - destruct (MachineTypes.fits s min_cpu min_ram metal_required) as [[]|e];
      cbn [fst gen_yield gen_raise fmap list_fmap].
    + apply sublist_skip, IH.
    + apply sublist_cons, IH.
    + apply sublist_nil_l.
Qed.

(** X11: whatever the query and however the generator ends, [filter] yields
    names of the catalogue under the provider and architecture, in the
    catalogue's order and each at most as often as it occurs there; when
    that entry is missing it yields nothing. *)
Theorem filter_yields_sublist (self : MachineTypes.t)
  (provider architecture : option string) (min_cpu : option Z)
  (min_ram_per_cpu : option Q) (metal_required : option bool) :
  (exists archs ms,
     dict_get_opt (MachineTypes._data self) provider = Ok archs
     /\ dict_get_opt archs architecture = Ok ms
     /\ (MachineTypes.filter self provider architecture min_cpu
           min_ram_per_cpu metal_required).1 `sublist_of` ms.*1)
  \/ (exists e,
        MachineTypes.filter self provider architecture min_cpu
          min_ram_per_cpu metal_required = ([], Some e)
        /\ (dict_get_opt (MachineTypes._data self) provider = Raise e
            \/ exists archs,
                 dict_get_opt (MachineTypes._data self) provider = Ok archs
                 /\ dict_get_opt archs architecture = Raise e)).
Proof.
  unfold MachineTypes.filter.
  match goal with
  | |- context [match ?x with Ok _ => _ | Raise _ => _ end] =>
      destruct x as [ms|e] eqn:E
  end.
  - apply bind_Ok in E as (archs & Ep & Ea). left. exists archs, ms.
    split; [exact Ep|]. split; [exact Ea|]. apply filter_loop_sublist.
  - right. exists e. split; [reflexivity|].
    apply bind_Raise in E as [E|(archs & Ep & Ea)]; [left; exact E|].
    right. exists archs. split; [exact Ep|exact Ea].
Qed.

Lemma fits_true_cpu s min_cpu min_ram metal_required :
  MachineTypes.fits s (Some min_cpu) min_ram metal_required = Ok true ->
  min_cpu <= MachineTypes.cpu s.
Proof.
  unfold MachineTypes.fits. cbn [py_ge_int mbind res_bind].
  destruct (min_cpu <=? MachineTypes.cpu s) eqn:E; [|discriminate].
  intros _. apply Z.leb_le, E.
Qed.

(** X12: a name that [filter] yields can be looked up with [cpus], and the
    machine has at least the cores asked for: this is the look-up
    [get_machine_list] makes on every name. *)
Theorem filter_names_have_cpus (self : MachineTypes.t)
  (provider architecture : string)
  (archs : list (string * MachineTypes.machines)) (ms : MachineTypes.machines)
  (min_cpu : Z) (min_ram_per_cpu : option Q) (metal_required : option bool)
  (name : string) :
  dict_get (MachineTypes._data self) provider = Ok archs ->
  dict_get archs architecture = Ok ms ->
  NoDup ms.*1 ->
  name ∈ (MachineTypes.filter self (Some provider) (Some architecture)
            (Some min_cpu) min_ram_per_cpu metal_required).1 ->
  exists cpus,
    MachineTypes.cpus self (Some provider) (Some architecture) name = Ok cpus
    /\ min_cpu <= cpus.
Proof.
  intros Hp Ha Hnd. unfold MachineTypes.filter, MachineTypes.cpus.
  cbn [dict_get_opt]. unfold MachineTypes.machines in *.
  rewrite Hp. cbn [mbind res_bind]. rewrite Ha. cbn [mbind res_bind].
  intros Hin. apply filter_loop_fits in Hin as (s & Hin & Hfit).
  rewrite (dict_get_NoDup ms name s Hnd Hin). cbn [mbind res_bind].
  exists (MachineTypes.cpu s). split; [reflexivity|].
  exact (fits_true_cpu _ _ _ _ Hfit).
Qed.

Lemma filter_names_have_cpus_witness :
  exists cpus,
    MachineTypes.cpus example_catalog (Some "aws") (Some "x64") "m1" = Ok cpus
    /\ 4 <= cpus.
Proof.
  apply (filter_names_have_cpus example_catalog "aws" "x64" _ _ 4
           (Some 2%Q) (Some false) "m1" eq_refl eq_refl).
  - repeat constructor. intros H. inversion H.
  - cbn. apply list_elem_of_here.
Defined.

Lemma filter_sublist_impl {A B : Type} (g : A -> B) (f f' : A -> bool) l :
  (forall x, f' x = true -> f x = true) ->
  map g (List.filter f' l) `sublist_of` map g (List.filter f l).
Proof.
  intros Himp. induction l as [|x l IH]; cbn; [constructor|].
  destruct (f' x) eqn:E'.
  - rewrite (Himp x E'). cbn. apply sublist_skip, IH.
  - destruct (f x); cbn; [apply sublist_cons, IH|exact IH].
Qed.

(** X13: a stricter query selects fewer machines: asking for more cores,
    more memory per core, or bare metal where it was not asked for, yields
    a sub-sequence of the names the laxer query yields. *)
Theorem filter_monotone (self : MachineTypes.t)
  (provider architecture : string)
  (archs : list (string * MachineTypes.machines)) (ms : MachineTypes.machines)
  (min_cores min_cores' : Z) (min_ram min_ram' : Q) (metal metal' : bool) :
  dict_get (MachineTypes._data self) provider = Ok archs ->
  dict_get archs architecture = Ok ms ->
  Forall (fun m => 0 < MachineTypes.cpu m.2) ms ->
  min_cores <= min_cores' -> (min_ram <= min_ram')%Q ->
  (metal = true -> metal' = true) ->
  (MachineTypes.filter self (Some provider) (Some architecture)
     (Some min_cores') (Some min_ram') (Some metal')).1
  `sublist_of`
  (MachineTypes.filter self (Some provider) (Some architecture)
     (Some min_cores) (Some min_ram) (Some metal)).1.
Proof.
  intros Hp Ha Hpos Hc Hr Hm. unfold MachineTypes.filter.
  cbn [dict_get_opt]. unfold MachineTypes.machines in *.
  rewrite Hp. cbn [mbind res_bind]. rewrite Ha.
  rewrite !filter_loop_meets
    by (eapply Forall_impl; [exact Hpos|]; cbn; intros; lia).
  cbn [fst]. apply filter_sublist_impl. intros [n s]. cbn [snd].
  rewrite !meets_query_spec. intros (H1 & H2 & H3).
  split; [lia|]. split; [eapply Qle_trans; eassumption|].
  destruct metal, metal', H3 as [H3|H3]; auto; try discriminate.
  specialize (Hm eq_refl). discriminate.
Qed.

Lemma filter_monotone_witness :
  (MachineTypes.filter example_catalog (Some "aws") (Some "x64")
     (Some 8) (Some 4%Q) (Some true)).1
  `sublist_of`
  (MachineTypes.filter example_catalog (Some "aws") (Some "x64")
     (Some 4) (Some 2%Q) (Some false)).1.
Proof.
  apply (filter_monotone example_catalog "aws" "x64" _ _ 4 8 2%Q 4%Q false
           true eq_refl eq_refl).
  - repeat constructor.
  - lia.
  - discriminate.
  - reflexivity.
Defined.

(** ** More on get_machine_list *)

Lemma gen_for_elem {A B : Type} (items : list A) (stop : option exn)
  (body : A -> res B) (b : B) :
  b ∈ (gen_for items stop body).1 -> exists x, x ∈ items /\ body x = Ok b.
Proof.
  induction items as [|x items IH]; cbn [gen_for fst].
  - intros H. inversion H.
  - destruct (body x) as [b'|e] eqn:E; cbn [gen_yield gen_raise fst].
    + intros H. apply elem_of_cons in H as [->|H].
      * exists x. split; [apply list_elem_of_here|exact E].
      * destruct (IH H) as (x' & Hin & Hx'). exists x'.
        split; [apply list_elem_of_further, Hin|exact Hx'].
    + intros H. inversion H.
Qed.

Lemma gen_for_all_raise {A B : Type} (items : list A) (stop : option exn)
  (body : A -> res B) :
  (forall x, is_ok (body x) = false) ->
  (gen_for items stop body).1 = []
  /\ (items <> [] -> is_Some (gen_for items stop body).2).
Proof.
  intros Hb. destruct items as [|x items]; cbn [gen_for].
  - split; [reflexivity|congruence].
  - specialize (Hb x). destruct (body x) as [b|e]; [discriminate|].
    split; [reflexivity|]. intros _. cbn. eauto.
Qed.

(** X14: every pair that [get_machine_list] yields names a machine the
    filter selected, with the number of cores [cpus] finds for it divided by
    [cores_per_task], which is set and is not zero; with a positive
    [cores_per_task] the capacity times the cores per task fits in the
    machine and one more task would not. *)
Theorem get_machine_list_entry (self : PoolConfiguration.t)
  (machine_types : MachineTypes.t) (name : string) (capacity : Z) :
  (name, capacity) ∈ (get_machine_list self machine_types).1 ->
  exists cores cpus,
    cores_per_task self = Some cores /\ cores <> 0
    /\ MachineTypes.cpus machine_types (cloud self) (cpu self) name = Ok cpus
    /\ name ∈ (MachineTypes.filter machine_types (cloud self) (cpu self)
                 (cores_per_task self) (minimum_memory_per_core self)
                 (metal self)).1
    /\ capacity = cpus / cores
    /\ (0 < cores ->
        capacity * cores <= cpus < capacity * cores + cores).
Proof.
  unfold get_machine_list. intros H.
  apply gen_for_elem in H as (machine & Hin & Hb).
  apply bind_Ok in Hb as (cpus & Hcpus & Hb).
  apply bind_Ok in Hb as (cap & Hdiv & [= <- <-]).
  destruct (cores_per_task self) as [cores|] eqn:Ec; [|discriminate].
  cbn [py_floordiv_opt] in Hdiv. unfold py_floordiv in Hdiv.
  destruct (Z.eqb_spec cores 0) as [|Hne]; [discriminate|].
  injection Hdiv as <-.
  exists cores, cpus. repeat split; try assumption.
  - rewrite Z.mul_comm. apply Z.mul_div_le. assumption.
  - pose proof (Z.mod_pos_bound cpus cores ltac:(assumption)).
    pose proof (Z.div_mod cpus cores Hne). lia.
Qed.

Lemma get_machine_list_entry_witness :
  exists cores cpus,
    cores_per_task complete_root = Some cores /\ cores <> 0
    /\ MachineTypes.cpus eight_core_catalog (cloud complete_root)
         (cpu complete_root) "m8" = Ok cpus
    /\ "m8" ∈ (MachineTypes.filter eight_core_catalog (cloud complete_root)
                 (cpu complete_root) (cores_per_task complete_root)
                 (minimum_memory_per_core complete_root)
                 (metal complete_root)).1
    /\ 2 = cpus / cores
    /\ (0 < cores -> 2 * cores <= cpus < 2 * cores + cores).
Proof.
  apply (get_machine_list_entry complete_root eight_core_catalog "m8" 2).
  cbn. apply list_elem_of_here.
Defined.

(** X15: a pool whose [cores_per_task] is unset or zero never gets a
    machine listed: the division fails on the first name the filter yields,
    and the generator ends there with an exception. *)
Theorem get_machine_list_without_cores (self : PoolConfiguration.t)
  (machine_types : MachineTypes.t) :
  cores_per_task self = None \/ cores_per_task self = Some 0 ->
  (get_machine_list self machine_types).1 = []
  /\ ((MachineTypes.filter machine_types (cloud self) (cpu self)
         (cores_per_task self) (minimum_memory_per_core self)
         (metal self)).1 <> [] ->
      is_Some (get_machine_list self machine_types).2).
Proof.
  intros Hc. unfold get_machine_list. apply gen_for_all_raise.
  intros machine.
  destruct (MachineTypes.cpus machine_types (cloud self) (cpu self) machine);
    cbn [mbind res_bind]; [|reflexivity].
  destruct Hc as [-> | ->]; reflexivity.
Qed.

Lemma get_machine_list_without_cores_witness :
  (get_machine_list zero_cores_pool eight_core_catalog).1 = []
  /\ ((MachineTypes.filter eight_core_catalog (cloud zero_cores_pool)
         (cpu zero_cores_pool) (cores_per_task zero_cores_pool)
         (minimum_memory_per_core zero_cores_pool)
         (metal zero_cores_pool)).1 <> [] ->
      is_Some (get_machine_list zero_cores_pool eight_core_catalog).2).
Proof.
  exact (get_machine_list_without_cores zero_cores_pool eight_core_catalog
           (or_intror eq_refl)).
Defined.

(** ** More on construction *)

Lemma parse_opt_ok {A B : Type} (f : A -> res B) (x : option A) (r : option B) :
  parse_opt f x = Ok r ->
  (x = None /\ r = None) \/ exists v w, x = Some v /\ f v = Ok w /\ r = Some w.
Proof.
  destruct x as [v|]; cbn [parse_opt].
  - intros H. apply bind_Ok in H as (w & Hw & [= <-]). right. eauto.
  - intros [= <-]. auto.
Qed.

Lemma parse_size_nonneg s divisor q :
  (0 < divisor)%Q -> parse_size s divisor = Ok q -> (0 <= q)%Q.
Proof.
  intros Hd H.
  destruct (match_size s) as [[[g1 g2] tail]|] eqn:Hm.
  - destruct (parse_size_matched s g1 g2 tail divisor Hm)
      as (v & m & Hv & Hpos & E).
    rewrite E in H.
    rewrite py_truediv_ok in H by (intros H0; rewrite H0 in Hd; discriminate).
    injection H as <-. rewrite Qred_correct.
    apply Qle_shift_div_l; [exact Hd|]. rewrite Qmult_0_l.
    apply Qmult_le_0_compat; [exact Hv|]. unfold Qle. cbn. lia.
  - unfold parse_size in H. rewrite Hm in H. discriminate.
Qed.


Lemma py_int_of_float_nonneg q : (0 <= q)%Q -> 0 <= py_int_of_float q.
Proof.
  unfold Qle, py_int_of_float. cbn. intros H.
  apply Z.quot_pos; lia.
Qed.

Lemma one_g_positive one_g : parse_size "1g" 1 = Ok one_g -> (0 < one_g)%Q.
Proof. intros [= <-]. reflexivity. Qed.

(** What [init_fields] guarantees of the attributes it sets. *)
Lemma init_fields_normalised (data : Data.t) (self : PoolConfiguration.t) :
  init_fields data = Ok self ->
  (forall c, cpu self = Some c -> c ∈ ARCHITECTURES)
  /\ (forall d, disk_size self = Some d -> 0 <= d)
  /\ (forall t, cycle_time self = Some t -> 0 <= t)
  /\ (forall m, minimum_memory_per_core self = Some m -> (0 <= m)%Q)
  /\ (is_Some (cpu self) <-> is_Some (Data.cpu data))
  /\ (is_Some (disk_size self) <-> is_Some (Data.disk_size data))
  /\ (is_Some (cycle_time self) <-> is_Some (Data.cycle_time data))
  /\ (is_Some (minimum_memory_per_core self)
      <-> is_Some (Data.minimum_memory_per_core data))
  /\ container self = Data.container data
  /\ cores_per_task self = Data.cores_per_task data
  /\ imageset self = Data.imageset data /\ metal self = Data.metal data
  /\ platform self = Data.platform data /\ tasks self = Data.tasks data
  /\ command self = Data.command data /\ macros self = Data.macros data
  /\ scopes self = Data.scopes data.
Proof.
  unfold init_fields. intros H.
  apply bind_Ok in H as (u1 & _ & H).
  apply bind_Ok in H as (mm & Hmm & H).
  apply bind_Ok in H as (ds & Hds & H).
  apply bind_Ok in H as (ct & Hct & H).
  apply bind_Ok in H as (cp & Hcp & H).
  apply bind_Ok in H as (u2 & _ & [= <-]). cbn.
  apply parse_opt_ok in Hmm, Hds, Hct, Hcp.
  repeat split; try reflexivity.
  - intros c ->. destruct Hcp as [[_ [=]]|(v & w & _ & Hw & [= <-])].
    apply bind_Ok in Hw as (a & Ha & Hw).
    apply bind_Ok in Hw as (u & _ & [= <-]).
    exact (proj1 (alias_cpu_arch _ _ Ha)).
  - intros d ->. destruct Hds as [[_ [=]]|(v & w & _ & Hw & [= <-])].
    apply bind_Ok in Hw as (g & Hg & Hw).
    apply bind_Ok in Hw as (x & Hx & [= <-]).
    apply py_int_of_float_nonneg.
    exact (parse_size_nonneg _ _ _ (one_g_positive _ Hg) Hx).
  - intros t ->. destruct Hct as [[_ [=]]|(v & w & _ & Hw & [= <-])].
    apply bind_Ok in Hw as (x & Hx & [= <-]).
    apply py_int_of_float_nonneg. unfold parse_time in Hx.
    apply bind_Ok in Hx as (n & Hn & Hx).
    rewrite py_truediv_ok in Hx by exact Q_apart_0_1. injection Hx as <-.
    apply Qred_div_nonneg; [|reflexivity].
    exact (parse_time_loop_nonneg _ _ Hn).
  - intros m ->. destruct Hmm as [[_ [=]]|(v & w & _ & Hw & [= <-])].
    apply bind_Ok in Hw as (g & Hg & Hx).
    exact (parse_size_nonneg _ _ _ (one_g_positive _ Hg) Hx).
  - destruct Hcp as [[-> ->]|(v & w & -> & _ & ->)]; [|eauto].
    intros [x [=]].
  - destruct Hcp as [[-> ->]|(v & w & -> & _ & ->)]; [|eauto].
    intros [x [=]].
  - destruct Hds as [[-> ->]|(v & w & -> & _ & ->)]; [|eauto].
    intros [x [=]].
  - destruct Hds as [[-> ->]|(v & w & -> & _ & ->)]; [|eauto].
    intros [x [=]].
  - destruct Hct as [[-> ->]|(v & w & -> & _ & ->)]; [|eauto].
    intros [x [=]].
  - destruct Hct as [[-> ->]|(v & w & -> & _ & ->)]; [|eauto].
    intros [x [=]].
  - destruct Hmm as [[-> ->]|(v & w & -> & _ & ->)]; [|eauto].
    intros [x [=]].
  - destruct Hmm as [[-> ->]|(v & w & -> & _ & ->)]; [|eauto].
    intros [x [=]].
Qed.

Lemma init_ok_fields load data flattened self flattened' :
  PoolConfiguration.__init__ load data flattened = Ok (self, flattened') ->
  init_fields data = Ok self /\ flattened' = default ∅ flattened
  /\ Data.parents data = [].
Proof.
  intros H. pose proof (init_ok_no_parents _ _ _ _ H) as Hp.
  unfold PoolConfiguration.__init__, _flatten in H.
  apply bind_Ok in H as (self0 & Hi & H).
  apply flatten_loop_ok in H as [_ [= <- <-]]. auto.
Qed.

(** X16: in every pool that is constructed the architecture, when set, is
    x64 or arm64, and the disk size, the cycle time and the memory per core,
    when set, are not negative. *)
Theorem constructed_pool_normalised
  (load : string -> option (gset string)
          -> res (PoolConfiguration.t * gset string))
  (data : Data.t) (flattened : option (gset string))
  (self : PoolConfiguration.t) (flattened' : gset string) :
  PoolConfiguration.__init__ load data flattened = Ok (self, flattened') ->
  (forall c, cpu self = Some c -> c ∈ ARCHITECTURES)
  /\ (forall d, disk_size self = Some d -> 0 <= d)
  /\ (forall t, cycle_time self = Some t -> 0 <= t)
  /\ (forall m, minimum_memory_per_core self = Some m -> (0 <= m)%Q).
Proof.
  intros H. apply init_ok_fields in H as (Hi & _ & _).
  apply init_fields_normalised in Hi as (H1 & H2 & H3 & H4 & _). auto.
Qed.

Lemma constructed_pool_normalised_witness :
  (forall c, Some "x64" = Some c -> c ∈ ARCHITECTURES)
  /\ (forall d, Some 120 = Some d -> 0 <= d)
  /\ (forall t, Some 5400 = Some t -> 0 <= t)
  /\ (forall m, Some 1%Q = Some m -> (0 <= m)%Q).
Proof.
  exact (constructed_pool_normalised (from_file 0 ∅) root_doc None _ _ eq_refl).
Defined.

Lemma is_complete_non_null (self : PoolConfiguration.t) :
  is_complete self = Ok tt <-> non_null self.
Proof.
  destruct self as [cl cm co cpt cp cy ds im ma me mm na pa pl sc ta].
  unfold is_complete, non_null, FIELDS. cbn.
  repeat is_complete_case.
  split; [intros _|reflexivity]. repeat split; eauto.
Qed.

(** X17: a pool that is constructed passes [is_complete] exactly when its
    own document gives every scalar field: nothing comes from a parent, for
    a document that names one is never constructed. *)
Theorem constructed_pool_complete
  (load : string -> option (gset string)
          -> res (PoolConfiguration.t * gset string))
  (data : Data.t) (flattened : option (gset string))
  (self : PoolConfiguration.t) (flattened' : gset string) :
  PoolConfiguration.__init__ load data flattened = Ok (self, flattened') ->
  (is_complete self = Ok tt <-> document_complete data)
  /\ Data.parents data = [] /\ flattened' = default ∅ flattened.
Proof.
  intros H. apply init_ok_fields in H as (Hi & Hf & Hp).
  split; [|auto]. rewrite is_complete_non_null.
  pose proof (init_fields_ok _ _ Hi) as (_ & Hn & _ & Hc & _).
  apply init_fields_normalised in Hi
    as (_ & _ & _ & _ & Hcpu & Hds & Hct & Hmm & Hco & Hcpt & Him & Hme & Hpl
        & Hta & _).
  unfold non_null, document_complete.
  rewrite Hcpu, Hds, Hct, Hmm, Hco, Hcpt, Him, Hme, Hpl, Hta, Hn, Hc.
  reflexivity.
Qed.

Lemma constructed_pool_complete_witness :
  exists self,
    (is_complete self = Ok tt <-> document_complete root_doc)
    /\ Data.parents root_doc = [] /\ (∅ : gset string) = default ∅ None.
Proof.
  eexists.
  exact (constructed_pool_complete (from_file 0 ∅) root_doc None _ _ eq_refl).
Defined.

(** ** More on resolution *)

(** X18: when the first parent of a document is not on disk, and is not a
    name already met, loading the document fails with the assertion of
    [from_file] on the parent's path. *)
Theorem missing_parent_is_invalid_file (depth : nat) (fs : files)
  (pool_yml parent : string) (rest : list string) (data : Data.t)
  (flattened : option (gset string)) :
  fs !! pool_yml = Some data -> is_ok (init_fields data) = true ->
  Data.parents data = parent :: rest ->
  parent ∉ default ∅ flattened -> fs !! parent = None ->
  from_file (S (S depth)) fs pool_yml flattened
  = Raise (AssertionError "Invalid file").
Proof.
  intros Hf Hi Hp Hn Hm. cbn [from_file]. rewrite Hf.
  unfold PoolConfiguration.__init__, _flatten.
  destruct (init_fields data) as [self|] eqn:E; [|discriminate].
  cbn [mbind res_bind].
  destruct (init_fields_ok _ _ E) as (_ & _ & _ & _ & ->). rewrite Hp.
  cbn [flatten_loop]. unfold py_assert.
  rewrite bool_decide_eq_true_2 by exact Hn. cbn [mbind res_bind].
  rewrite Hm. reflexivity.
Qed.

(** X19: a document that names itself as its first parent is refused with
    the cycle assertion on its own path; the path of the root is not in the
    set when the walk starts, so this is found when the document is loaded a
    second time. *)
Theorem self_parent_is_cyclic (depth : nat) (fs : files)
  (pool_yml : string) (rest : list string) (data : Data.t)
  (flattened : option (gset string)) :
  fs !! pool_yml = Some data -> is_ok (init_fields data) = true ->
  Data.parents data = pool_yml :: rest ->
  pool_yml ∉ default ∅ flattened ->
  from_file (S (S depth)) fs pool_yml flattened
  = Raise (AssertionError (cyclic_message pool_yml)).
Proof.
  intros Hf Hi Hp Hn. cbn [from_file]. rewrite Hf.
  unfold PoolConfiguration.__init__, _flatten.
  destruct (init_fields data) as [self|] eqn:E; [|discriminate].
  cbn [mbind res_bind].
  destruct (init_fields_ok _ _ E) as (_ & _ & _ & _ & Hps).
  rewrite !Hps, !Hp.
  cbn [flatten_loop]. unfold py_assert at 1.
  rewrite bool_decide_eq_true_2 by exact Hn. cbn [mbind res_bind].
  rewrite Hf, E. cbn [mbind res_bind default]. rewrite Hps, Hp. unfold id.
  rewrite flatten_loop_revisit by set_solver. reflexivity.
Qed.

Lemma missing_parent_is_invalid_file_witness :
  from_file 2 fs_missing_parent "child" None
  = Raise (AssertionError "Invalid file").
Proof.
  apply (missing_parent_is_invalid_file 0 fs_missing_parent "child" "missing"
           [] (sparse_doc "child" ["missing"] ∅ []) None);
    try reflexivity.
  cbn. apply not_elem_of_empty.
Defined.

Lemma self_parent_is_cyclic_witness :
  from_file 2 fs_self_parent "loop" None
  = Raise (AssertionError (cyclic_message "loop")).
Proof.
  apply (self_parent_is_cyclic 0 fs_self_parent "loop" []
           (sparse_doc "loop" ["loop"] ∅ []) None);
    try reflexivity.
  cbn. apply not_elem_of_empty.
Defined.

(** The exceptions of the parsers and checks of [init_fields]: none is the
    exhaustion of the nesting depth. *)
Lemma parse_size_not_recursion s divisor :
  parse_size s divisor <> Raise RecursionError.
Proof.
  destruct (match_size s) as [[[g1 g2] tail]|] eqn:Hm.
  - destruct (parse_size_matched s g1 g2 tail divisor Hm)
      as (v & m & _ & _ & ->).
    unfold py_truediv. destruct (Qeq_bool divisor 0); discriminate.
  - unfold parse_size. rewrite Hm. discriminate.
Qed.

Lemma parse_time_not_recursion time divisor :
  parse_time time divisor <> Raise RecursionError.
Proof.
  intros H. apply parse_time_raise in H as [H|[[=] _]].
  apply parse_time_loop_raises in H. unfold time_errors in H.
  repeat (apply elem_of_cons in H as [[=]|H]). inversion H.
Qed.

Lemma bind_not_recursion {A B : Type} (m : res A) (k : A -> res B) :
  m <> Raise RecursionError -> (forall a, k a <> Raise RecursionError) ->
  m ≫= k <> Raise RecursionError.
Proof. destruct m as [a|e]; cbn; [auto|]. intros H _ [= ->]. auto. Qed.

Lemma parse_opt_not_recursion {A B : Type} (f : A -> res B) (x : option A) :
  (forall v, f v <> Raise RecursionError) ->
  parse_opt f x <> Raise RecursionError.
Proof.
  intros Hf. destruct x as [v|]; cbn [parse_opt]; [|discriminate].
  apply bind_not_recursion; [apply Hf|discriminate].
Qed.

Lemma py_assert_not_recursion cond msg :
  py_assert cond msg <> Raise RecursionError.
Proof. destruct cond; discriminate. Qed.

Lemma init_fields_not_recursion data :
  init_fields data <> Raise RecursionError.
Proof.
  unfold init_fields.
  repeat (apply bind_not_recursion;
          [first [apply py_assert_not_recursion
                 |apply parse_opt_not_recursion; intros v]
          |intros ?]); try discriminate.
  - apply bind_not_recursion; [apply parse_size_not_recursion|].
    intros g. apply parse_size_not_recursion.
  - apply bind_not_recursion; [apply parse_size_not_recursion|].
    intros g. apply bind_not_recursion; [apply parse_size_not_recursion|].
    discriminate.
  - apply bind_not_recursion; [apply parse_time_not_recursion|]. discriminate.
  - apply bind_not_recursion.
    + unfold alias_cpu. intros H. apply dict_get_raise in H as [[=] _].
    + intros c. apply bind_not_recursion; [apply py_assert_not_recursion|].
      discriminate.
Qed.

(** The loop of [_flatten] in terms of the load of its first parent. *)
Lemma flatten_loop_first load parent rest self (flattened : gset string) :
  parent ∉ flattened ->
  flatten_loop load (parent :: rest) self flattened
  = match load parent (Some ({[parent]} ∪ flattened)) with
    | Ok _ => Raise set_plus_TypeError
    | Raise e => Raise e
    end.
Proof.
  intros Hn. cbn [flatten_loop]. unfold py_assert.
  rewrite bool_decide_eq_true_2 by exact Hn. cbn [mbind res_bind].
  destruct (load parent _); reflexivity.
Qed.

Lemma init_with_loaders load load' data flattened :
  (forall parent rest,
     is_ok (init_fields data) = true ->
     Data.parents data = parent :: rest ->
     parent ∉ default ∅ flattened ->
     load parent (Some ({[parent]} ∪ default ∅ flattened))
     = load' parent (Some ({[parent]} ∪ default ∅ flattened))) ->
  PoolConfiguration.__init__ load data flattened
  = PoolConfiguration.__init__ load' data flattened.
Proof.
  intros H. unfold PoolConfiguration.__init__, _flatten.
  destruct (init_fields data) as [self|e] eqn:E; [|reflexivity].
  cbn [mbind res_bind].
  destruct (init_fields_ok _ _ E) as (_ & _ & _ & _ & ->).
  destruct (Data.parents data) as [|parent rest] eqn:Hp; [reflexivity|].
  destruct (decide (parent ∈ default ∅ flattened)) as [Hin|Hn].
  - rewrite !flatten_loop_revisit by exact Hin. reflexivity.
  - rewrite !flatten_loop_first by exact Hn.
    rewrite (H _ _ eq_refl eq_refl Hn). reflexivity.
Qed.

(** A result other than the exhaustion of the depth stays the same with one
    more level of nesting allowed. *)
Lemma from_file_more_depth depth fs :
  forall pool_yml flattened,
    from_file depth fs pool_yml flattened <> Raise RecursionError ->
    from_file (S depth) fs pool_yml flattened
    = from_file depth fs pool_yml flattened.
Proof.
  induction depth as [|depth IH]; intros p fl Hr; [cbn in Hr; congruence|].
  cbn [from_file] in Hr |- *.
  destruct (fs !! p) as [data|]; [|reflexivity].
  apply init_with_loaders. intros parent rest Hi Hp Hn.
  apply IH. intros Hrec. apply Hr.
  unfold PoolConfiguration.__init__, _flatten.
  destruct (init_fields data) as [self|e] eqn:E; [|discriminate].
  cbn [mbind res_bind].
  destruct (init_fields_ok _ _ E) as (_ & _ & _ & _ & ->). rewrite Hp.
  rewrite flatten_loop_first by exact Hn. rewrite Hrec. reflexivity.
Qed.

Lemma from_file_deeper depth depth' fs pool_yml flattened :
  (depth <= depth')%nat ->
  from_file depth fs pool_yml flattened <> Raise RecursionError ->
  from_file depth' fs pool_yml flattened
  = from_file depth fs pool_yml flattened.
Proof.
  induction 1 as [|d Hle IH]; intros Hr; [reflexivity|].
  rewrite from_file_more_depth; rewrite (IH Hr); [reflexivity|exact Hr].
Qed.

(** The nesting a load needs: each nested load adds to the set a path that
    is on disk and was not in the set. *)
Lemma from_file_depth_suffices fs :
  forall (m depth : nat) (pool_yml : string) (flattened : option (gset string)),
    (size (dom fs ∖ default ∅ flattened) <= m)%nat ->
    (m + 2 <= depth)%nat ->
    from_file depth fs pool_yml flattened <> Raise RecursionError.
Proof.
  induction m as [|m IH]; intros depth p fl Hsize Hdepth;
    (destruct depth as [|depth]; [lia|]); cbn [from_file];
    (destruct (fs !! p) as [data|]; [|discriminate]);
    unfold PoolConfiguration.__init__, _flatten;
    (destruct (init_fields data) as [self|e] eqn:E;
     [|cbn [mbind res_bind]; intros [= ->];
       exact (init_fields_not_recursion data E)]);
    cbn [mbind res_bind];
    (destruct (parents self) as [|parent rest]; [discriminate|]);
    (destruct (decide (parent ∈ default ∅ fl)) as [Hin|Hn];
     [rewrite flatten_loop_revisit by exact Hin; discriminate|]);
    rewrite flatten_loop_first by exact Hn;
    (destruct depth as [|depth]; [lia|]).
  - cbn [from_file]. destruct (fs !! parent) as [pdata|] eqn:Ep; [|discriminate].
    exfalso. assert (parent ∈ dom fs) as Hdom by (apply elem_of_dom; eauto).
    assert (dom fs ∖ default ∅ fl ≡ ∅) as Hempty
      by (apply size_empty_iff; lia).
    set_solver.
  - destruct (fs !! parent) as [pdata|] eqn:Ep.
    + assert (from_file (S depth) fs parent
                (Some ({[parent]} ∪ default ∅ fl)) <> Raise RecursionError)
        as Hrec.
      { apply IH; [|lia]. cbn [default].
        assert (dom fs ∖ ({[parent]} ∪ default ∅ fl) ⊂ dom fs ∖ default ∅ fl)
          as Hsub.
        { assert (parent ∈ dom fs) as Hdom by (apply elem_of_dom; eauto).
          set_solver. }
        apply subset_size in Hsub. unfold default, id in *. lia. }
      destruct (from_file (S depth) fs parent _) as [r|e]; [discriminate|].
      intros [= ->]. apply Hrec. reflexivity.
    + cbn [from_file]. rewrite Ep. discriminate.
Qed.

(** X20: resolution ends: with a nesting depth of two more than the number
    of pool files a load never runs out of depth, and any greater depth
    gives the same result. *)
Theorem resolution_depth_bound (fs : files) (depth : nat)
  (pool_yml : string) (flattened : option (gset string)) :
  (size (dom fs) + 2 <= depth)%nat ->
  from_file depth fs pool_yml flattened <> Raise RecursionError
  /\ from_file depth fs pool_yml flattened
     = from_file (size (dom fs) + 2) fs pool_yml flattened.
Proof.
  intros Hd.
  assert (forall d, (size (dom fs) + 2 <= d)%nat ->
                    from_file d fs pool_yml flattened <> Raise RecursionError)
    as Hok.
  { intros d Hle. apply (from_file_depth_suffices fs (size (dom fs))); [|exact Hle].
    apply subseteq_size. set_solver. }
  split; [apply Hok; exact Hd|].
  apply from_file_deeper; [exact Hd|]. apply Hok. lia.
Qed.

Lemma resolution_depth_bound_witness :
  from_file 7 fs_diamond "root" None <> Raise RecursionError
  /\ from_file 7 fs_diamond "root" None
     = from_file (size (dom fs_diamond) + 2) fs_diamond "root" None.
Proof.
  apply (resolution_depth_bound fs_diamond 7 "root" None).
  vm_compute. lia.
Defined.

(** ** build_tasks *)

Lemma append_cancel_l (s t1 t2 : string) : s +:+ t1 = s +:+ t2 -> t1 = t2.
Proof.
  induction s as [|a s IH]; cbn; [trivial|]. intros [= H]. exact (IH H).
Qed.

Lemma append_cancel_r (s1 s2 t : string) : s1 +:+ t = s2 +:+ t -> s1 = s2.
Proof.
  revert s2. induction s1 as [|a s1 IH]; intros [|b s2] H.
  - reflexivity.
  - apply (f_equal String.length) in H. cbn in H.
    rewrite length_append in H. lia.
  - apply (f_equal String.length) in H. cbn in H.
    rewrite length_append in H. lia.
  - cbn in H. injection H as -> H. rewrite (IH _ H). reflexivity.
Qed.

(** What a task built for the number [i] holds. *)
Lemma task_reads ext self filename parent_task_id now i t :
  task ext self filename parent_task_id now i = Ok t ->
  task_name t
  = Ok (VStr ("Fuzzing task " +:+ pool_id self filename +:+ " - "
              +:+ pretty i +:+ "/" +:+ py_format pretty (tasks self)))
  /\ value_get "taskGroupId" t = Ok (VStr parent_task_id)
  /\ value_get "dependencies" t = Ok (VList [VStr parent_task_id])
  /\ value_get "workerType" t = Ok (VStr (pool_id self filename))
  /\ value_get2 "payload" "maxRunTime" t = Ok (value_of_int (cycle_time self)).
Proof.
  unfold task.
  destruct (py_deadline ext now (cycle_time self)) as [d|e]; [|discriminate].
  cbn [mbind res_bind].
  destruct (fromNow ext "1 month" now) as [x|e]; [|discriminate].
  intros [= <-]. repeat split; reflexivity.
Qed.

(** Whether a task can be built does not depend on its number. *)
Lemma task_uniform ext self filename parent_task_id now i j :
  is_ok (task ext self filename parent_task_id now i)
  = is_ok (task ext self filename parent_task_id now j).
Proof.
  unfold task.
  destruct (py_deadline ext now (cycle_time self)) as [d|e]; [|reflexivity].
  cbn [mbind res_bind].
  destruct (fromNow ext "1 month" now) as [x|e]; reflexivity.
Qed.

Lemma task_succeeds ext self filename parent_task_id now i c deadline expires :
  cycle_time self = Some c ->
  add_seconds ext now c = Ok deadline ->
  fromNow ext "1 month" now = Ok expires ->
  is_ok (task ext self filename parent_task_id now i) = true.
Proof.
  intros Hc Hd Hx. unfold task, py_deadline. rewrite Hc, Hd.
  cbn [mbind res_bind]. rewrite Hx. reflexivity.
Qed.

Lemma build_tasks_loop_ok ext self filename parent_task_id now :
  (forall i, is_ok (task ext self filename parent_task_id now i) = true) ->
  forall todo calls,
    snd (build_tasks_loop ext self filename parent_task_id now todo calls)
    = None
    /\ length
         (fst (build_tasks_loop ext self filename parent_task_id now todo calls))
       = length todo
    /\ forall k i, todo !! k = Some i ->
         exists t,
           task ext self filename parent_task_id now i = Ok t
           /\ fst (build_tasks_loop ext self filename parent_task_id now todo
                     calls) !! k
              = Some (slugId ext (calls + k), t).
Proof.
  intros Hok. induction todo as [|i rest IH]; intros calls.
  - cbn. repeat split. intros k i [=].
  - cbn [build_tasks_loop]. specialize (Hok i) as Hi.
    destruct (task ext self filename parent_task_id now i) as [t|e] eqn:E;
      [|discriminate].
    destruct (IH (S calls)) as (Hs & Hl & Hk).
    cbn [gen_yield fst snd]. split; [exact Hs|].
    split; [cbn [length]; rewrite Hl; reflexivity|].
    intros [|k] j Hj; cbn in Hj.
    + injection Hj as <-. exists t. split; [exact E|].
      cbn. rewrite Nat.add_0_r. reflexivity.
    + destruct (Hk k j Hj) as (t' & Ht' & Hlk). exists t'. split; [exact Ht'|].
      change (fst (build_tasks_loop ext self filename parent_task_id now rest
                     (S calls)) !! k
              = Some (slugId ext (calls + S k)%nat, t')).
      rewrite Hlk. replace (calls + S k)%nat with (S calls + k)%nat by lia.
      reflexivity.
Qed.

Lemma build_tasks_loop_fails ext self filename parent_task_id now i rest calls :
  is_ok (task ext self filename parent_task_id now i) = false ->
  fst (build_tasks_loop ext self filename parent_task_id now (i :: rest) calls)
  = [].
Proof.
  intros H. cbn [build_tasks_loop].
  destruct (task ext self filename parent_task_id now i); [discriminate|].
  reflexivity.
Qed.

Lemma build_tasks_loop_all_or_nothing ext self filename parent_task_id now
  todo calls :
  snd (build_tasks_loop ext self filename parent_task_id now todo calls) = None
  \/ fst (build_tasks_loop ext self filename parent_task_id now todo calls)
     = [].
Proof.
  destruct todo as [|i rest]; [left; reflexivity|].
  destruct (is_ok (task ext self filename parent_task_id now i)) eqn:E.
  - left. apply build_tasks_loop_ok. intros j.
    rewrite (task_uniform _ _ _ _ _ j i). exact E.
  - right. apply build_tasks_loop_fails. exact E.
Qed.

(** What the loop yields was built for one of the numbers to come. *)
Lemma build_tasks_loop_elem ext self filename parent_task_id now item :
  forall todo calls,
    item ∈ fst (build_tasks_loop ext self filename parent_task_id now todo
                  calls) ->
    exists i, i ∈ todo
              /\ task ext self filename parent_task_id now i = Ok (snd item).
Proof.
  induction todo as [|i rest IH]; intros calls; cbn [build_tasks_loop].
  - cbn. intros H. apply elem_of_nil in H. destruct H.
  - destruct (task ext self filename parent_task_id now i) as [t|e] eqn:E.
    + cbn [gen_yield fst]. intros H. apply elem_of_cons in H as [->|H].
      * exists i. split; [left|exact E].
      * destruct (IH _ H) as (j & Hj & Ht). exists j. split; [right|]; assumption.
    + cbn. intros H. apply elem_of_nil in H. destruct H.
Qed.

Lemma build_tasks_loop_names ext self filename parent_task_id now :
  forall todo calls,
    NoDup todo ->
    NoDup (map (fun item => task_name (snd item))
             (fst (build_tasks_loop ext self filename parent_task_id now todo
                     calls))).
Proof.
  induction todo as [|i rest IH]; intros calls Hnd; cbn [build_tasks_loop].
  - cbn. constructor.
  - apply NoDup_cons in Hnd as [Hi Hrest].
    destruct (task ext self filename parent_task_id now i) as [t|e] eqn:E;
      [|cbn; constructor].
    cbn [gen_yield fst map snd]. apply NoDup_cons. split; [|apply IH; exact Hrest].
    intros Hin. apply list_elem_of_fmap in Hin as (item & Hname & Hitem).
    apply build_tasks_loop_elem in Hitem as (j & Hj & Ht).
    apply task_reads in E as (E & _). apply task_reads in Ht as (Ht & _).
    rewrite E, Ht in Hname.
    assert (forall a b : string, Ok (VStr a) = Ok (VStr b) -> a = b) as Hinj
      by (intros a b [= ->]; reflexivity).
    apply Hinj in Hname. do 3 apply append_cancel_l in Hname. apply append_cancel_r in Hname.
    apply pretty_Z_inj in Hname. subst j. exact (Hi Hj).
Qed.

Lemma py_range_lookup (start stop : Z) (k : nat) :
  (k < Z.to_nat (stop - start))%nat ->
  py_range start stop !! k = Some (start + Z.of_nat k).
Proof.
  intros H. unfold py_range. rewrite list_lookup_fmap.
  rewrite lookup_seq_lt by exact H. reflexivity.
Qed.

Lemma py_range_NoDup (start stop : Z) : NoDup (py_range start stop).
Proof.
  unfold py_range. apply NoDup_fmap_2; [|apply NoDup_seq].
  intros a b H. lia.
Qed.

(** X21: with the number of tasks and the cycle time set, and the two dates
    in range, [build_tasks] ends normally after yielding exactly [tasks]
    tasks; the task at position [k] carries the identifier drawn by the
    call number [k] of [slugId], is named with the number [k + 1] out of
    [tasks], belongs to the group of and depends on the parent task, runs
    on the worker type of the pool id and for at most the cycle time. *)
Theorem build_tasks_numbered (ext : externals) (self : PoolConfiguration.t)
  (filename parent_task_id : string) (now : datetime ext) (calls : nat)
  (n c : Z) (deadline expires : datetime ext) :
  tasks self = Some n ->
  cycle_time self = Some c ->
  add_seconds ext now c = Ok deadline ->
  fromNow ext "1 month" now = Ok expires ->
  snd (build_tasks ext self filename parent_task_id now calls) = None
  /\ length (fst (build_tasks ext self filename parent_task_id now calls))
     = Z.to_nat n
  /\ forall k : nat, (k < Z.to_nat n)%nat ->
       exists t,
         fst (build_tasks ext self filename parent_task_id now calls) !! k
         = Some (slugId ext (calls + k), t)
         /\ task_name t
            = Ok (VStr (numbered_name (pool_id self filename)
                          (Z.of_nat k + 1) n))
         /\ value_get "taskGroupId" t = Ok (VStr parent_task_id)
         /\ value_get "dependencies" t = Ok (VList [VStr parent_task_id])
         /\ value_get "workerType" t = Ok (VStr (pool_id self filename))
         /\ value_get2 "payload" "maxRunTime" t = Ok (VInt c).
Proof.
  intros Hn Hc Hd Hx. unfold build_tasks. rewrite Hn. cbn [py_add_opt].
  assert (forall i, is_ok (task ext self filename parent_task_id now i) = true)
    as Hok by (intros i; exact (task_succeeds _ _ _ _ _ i _ _ _ Hc Hd Hx)).
  destruct (build_tasks_loop_ok _ _ _ _ _ Hok (py_range 1 (n + 1)) calls)
    as (Hs & Hl & Hk).
  split; [exact Hs|]. split.
  - rewrite Hl. unfold py_range. rewrite length_map, length_seq. f_equal. lia.
  - intros k Hlt.
    destruct (Hk k (1 + Z.of_nat k)) as (t & Ht & Hlk).
    { apply py_range_lookup. replace (n + 1 - 1) with n by lia. exact Hlt. }
    exists t. split; [exact Hlk|].
    destruct (task_reads _ _ _ _ _ _ _ Ht) as (H1 & H2 & H3 & H4 & H5).
    rewrite Hn in H1. rewrite Hc in H5. unfold numbered_name.
    replace (Z.of_nat k + 1) with (1 + Z.of_nat k) by lia.
    repeat split; assumption.
Qed.

Lemma build_tasks_numbered_witness :
  snd (build_tasks example_externals zero_cores_pool "pool1" "parent" 0 0)
  = None
  /\ length
       (fst (build_tasks example_externals zero_cores_pool "pool1" "parent"
               0 0))
     = Z.to_nat 2
  /\ forall k : nat, (k < Z.to_nat 2)%nat ->
       exists t,
         fst (build_tasks example_externals zero_cores_pool "pool1" "parent"
                0 0) !! k
         = Some (slugId example_externals (0 + k), t)
         /\ task_name t
            = Ok (VStr (numbered_name (pool_id zero_cores_pool "pool1")
                          (Z.of_nat k + 1) 2))
         /\ value_get "taskGroupId" t = Ok (VStr "parent")
         /\ value_get "dependencies" t = Ok (VList [VStr "parent"])
         /\ value_get "workerType" t
            = Ok (VStr (pool_id zero_cores_pool "pool1"))
         /\ value_get2 "payload" "maxRunTime" t = Ok (VInt 3600).
Proof.
  apply (build_tasks_numbered example_externals zero_cores_pool "pool1"
           "parent" 0 0%nat 2 3600 3600 2592000); reflexivity.
Defined.

(** X22: the ways [build_tasks] yields nothing: without a number of tasks
    it raises a TypeError at once; with a number of tasks below one it ends
    normally, whatever the other attributes; with at least one task and no
    cycle time it raises a TypeError before the first task. *)
Theorem build_tasks_nothing (ext : externals) (self : PoolConfiguration.t)
  (filename parent_task_id : string) (now : datetime ext) (calls : nat) :
  (tasks self = None ->
   build_tasks ext self filename parent_task_id now calls
   = ([], Some (TypeError
                  "unsupported operand type(s) for +: 'NoneType' and 'int'")))
  /\ (forall n, tasks self = Some n -> n <= 0 ->
      build_tasks ext self filename parent_task_id now calls = ([], None))
  /\ (forall n, tasks self = Some n -> 1 <= n -> cycle_time self = None ->
      build_tasks ext self filename parent_task_id now calls
      = ([], Some (TypeError
                     "unsupported type for timedelta seconds component: NoneType"))).
Proof.
  unfold build_tasks. repeat split.
  - intros ->. reflexivity.
  - intros n -> Hn. cbn [py_add_opt]. unfold py_range.
    replace (Z.to_nat (n + 1 - 1)) with 0%nat by lia. reflexivity.
  - intros n -> Hn Hc. cbn [py_add_opt]. unfold py_range.
    destruct (Z.to_nat (n + 1 - 1)) as [|m] eqn:Em; [lia|].
    cbn [seq map build_tasks_loop]. unfold task, py_deadline. rewrite Hc.
    reflexivity.
Qed.

(** X23: [build_tasks] never fails part of the way: either it ends normally
    or it has yielded no task. *)
Theorem build_tasks_all_or_nothing (ext : externals)
  (self : PoolConfiguration.t) (filename parent_task_id : string)
  (now : datetime ext) (calls : nat) :
  snd (build_tasks ext self filename parent_task_id now calls) = None
  \/ fst (build_tasks ext self filename parent_task_id now calls) = [].
Proof.
  unfold build_tasks.
  destruct (py_add_opt (tasks self) 1) as [stop|e]; [|right; reflexivity].
  apply build_tasks_loop_all_or_nothing.
Qed.

(** X24: no two tasks yielded by [build_tasks] have the same name. *)
Theorem build_tasks_names_distinct (ext : externals)
  (self : PoolConfiguration.t) (filename parent_task_id : string)
  (now : datetime ext) (calls : nat) :
  NoDup (map (fun item => task_name (snd item))
           (fst (build_tasks ext self filename parent_task_id now calls))).
Proof.
  unfold build_tasks.
  destruct (py_add_opt (tasks self) 1) as [stop|e]; [|cbn; constructor].
  apply build_tasks_loop_names. apply py_range_NoDup.
Qed.
